(** * Special-request store form: the state core of [App]

    A shallow embedding of the React component [App] (catalog search,
    request-list editing, submission life cycle) and of the records of
    [types.ts], with the properties of its specification.

    Conventions of the embedding.
    - A JavaScript string is a [string]: a sequence of code units, taken in
      the range U+0000..U+00FF.  [toLowerCase], [trim] and [parseInt] are
      given on that range.  The search is also given on strings of 16-bit
      code units with the lower-casing of ECMAScript (module [Utf16]); on
      text up to U+00FF the two agree ([search_widen]).
    - A JavaScript [number] holding an integer is [Int z] with [z : Z]; the
      not-a-number value is [NaN].  Both zeros are [Int 0] (they are equally
      falsy, and no code here tells them apart).  Rounding of integers beyond
      2^53 is not modelled; it changes neither the sign of a number nor
      whether it is [NaN].
    - A handler is a function from the state of the render in which it was
      created to the next state and the list of effects it requested
      (timers, network requests, console output). *)

From Stdlib Require Import String Ascii List ZArith NArith Lia Bool Arith.
From Stdlib Require Import DecimalString DecimalPos DecimalZ.
Import ListNotations.

Local Open Scope string_scope.
Local Open Scope Z_scope.

(* ------------------------------------------------------------------ *)
(** ** JavaScript strings *)

Module JsString.

Definition code_unit (c : ascii) : N := N_of_ascii c.

(** [String.prototype.toLowerCase] on one code unit of U+0000..U+00FF:
    A-Z, and the Latin-1 capitals U+00C0..U+00DE except the sign U+00D7. *)
Definition lower_unit (c : ascii) : ascii :=
  let n := code_unit c in
  if ((65 <=? n) && (n <=? 90))%N then ascii_of_N (n + 32)
  else if ((192 <=? n) && (n <=? 222) && negb (n =? 215))%N
       then ascii_of_N (n + 32)
       else c.

Fixpoint toLowerCase (s : string) : string :=
  match s with
  | EmptyString => EmptyString
  | String c s' => String (lower_unit c) (toLowerCase s')
  end.

(** White space and line terminators of ECMAScript below U+0100:
    TAB, LF, VT, FF, CR, SP and NBSP. *)
Definition is_white (c : ascii) : bool :=
  let n := code_unit c in
  ((9 <=? n) && (n <=? 13) || (n =? 32) || (n =? 160))%N.

Fixpoint trimStart (s : string) : string :=
  match s with
  | EmptyString => EmptyString
  | String c s' => if is_white c then trimStart s' else s
  end.

Fixpoint trimEnd (s : string) : string :=
  match s with
  | EmptyString => EmptyString
  | String c s' =>
      match trimEnd s' with
      | EmptyString => if is_white c then EmptyString else String c EmptyString
      | r => String c r
      end
  end.

Definition trim (s : string) : string := trimEnd (trimStart s).

(** [s.includes(q)]: [q] occurs in [s] at some position. *)
Fixpoint includes (s q : string) : bool :=
  if String.prefix q s then true
  else match s with
       | EmptyString => false
       | String _ s' => includes s' q
       end.

End JsString.

(* ------------------------------------------------------------------ *)
(** ** JavaScript numbers *)

Module JsNumber.

Inductive number : Type :=
| NaN : number
| Int : Z -> number.

(** [ToBoolean] of a number: [NaN] and zero are falsy. *)
Definition truthy (n : number) : bool :=
  match n with
  | NaN => false
  | Int z => negb (z =? 0)
  end.

(** [a || b] on numbers. *)
Definition or_else (a b : number) : number := if truthy a then a else b.

Definition is_negative (n : number) : bool :=
  match n with
  | NaN => false
  | Int z => z <? 0
  end.

(** Value of a digit in the given radix (10 or 16). *)
Definition digit_value (radix : Z) (c : ascii) : option Z :=
  let n := Z.of_N (N_of_ascii c) in
  let v := if (48 <=? n) && (n <=? 57) then Some (n - 48)
           else if (97 <=? n) && (n <=? 122) then Some (n - 87)
           else if (65 <=? n) && (n <=? 90) then Some (n - 55)
           else None in
  match v with
  | Some d => if d <? radix then Some d else None
  | None => None
  end.

(** The longest prefix of digits, read in [radix]; [acc] is the value read
    so far, [None] while no digit has been seen. *)
Fixpoint parse_digits (radix : Z) (s : string) (acc : option Z) : option Z :=
  match s with
  | EmptyString => acc
  | String c s' =>
      match digit_value radix c with
      | None => acc
      | Some d =>
          parse_digits radix s'
            (Some (match acc with None => d | Some a => a * radix + d end))
      end
  end.

(** [parseInt(s)] without a radix argument: leading white space is skipped,
    a sign is read, a [0x]/[0X] prefix selects radix 16, then the longest
    prefix of digits is the value; no digit gives [NaN]. *)
Definition parseInt (s : string) : number :=
  let s1 := JsString.trimStart s in
  let '(sign, s2) :=
    match s1 with
    | String "-" r => (-1, r)
    | String "+" r => (1, r)
    | _ => (1, s1)
    end in
  let '(radix, s3) :=
    match s2 with
    | String "0" (String "x" r) => (16, r)
    | String "0" (String "X" r) => (16, r)
    | _ => (10, s2)
    end in
  match parse_digits radix s3 None with
  | None => NaN
  | Some m => Int (sign * m)
  end.

(** [String(n)] and the template-literal conversion of a number: the decimal
    numeral of an integer (as JavaScript prints integers below 10^21). *)
Definition toString (n : number) : string :=
  match n with
  | NaN => "NaN"
  | Int z => NilZero.string_of_int (Z.to_int z)
  end.

End JsNumber.

Import JsString JsNumber.

(* ------------------------------------------------------------------ *)
(** ** JavaScript strings in full: UTF-16 code units

    The search is also given on strings as the language has them, sequences
    of 16-bit code units, with [toLowerCase] as ECMAScript defines it:
    the string is read as code points, lower-cased by the Unicode default
    case conversion (the mapping of each code point, and the final form of
    the Greek capital sigma where the context asks for it), and written
    back as code units.  The Unicode case data is a table that the engine
    carries; here it is a parameter. *)

Module Utf16.

Local Open Scope N_scope.
Local Open Scope list_scope.

Definition ustring : Type := list N.

(** U+D800..U+DBFF and U+DC00..U+DFFF. *)
Definition isHighSurrogate (u : N) : bool := (55296 <=? u) && (u <=? 56319).
Definition isLowSurrogate (u : N) : bool := (56320 <=? u) && (u <=? 57343).

(** [StringToCodePoints]: a surrogate pair is one code point, a surrogate
    on its own is a code point of its own. *)
Fixpoint codePoints (s : ustring) : list N :=
  match s with
  | [] => []
  | h :: t =>
      match t with
      | l :: t' =>
          if isHighSurrogate h && isLowSurrogate l
          then (65536 + (h - 55296) * 1024 + (l - 56320)) :: codePoints t'
          else h :: codePoints t
      | [] => [h]
      end
  end.

(** [UTF16EncodeCodePoint] and [CodePointsToString]. *)
Definition encodeCodePoint (c : N) : ustring :=
  if c <? 65536 then [c]
  else [55296 + (c - 65536) / 1024; 56320 + (c - 65536) mod 1024].

Definition codeUnits (cps : list N) : ustring := flat_map encodeCodePoint cps.

(** The Unicode data that lower-casing reads: the lower-case mapping of a
    code point (itself when it has none; several code points for U+0130),
    and the properties Cased and Case_Ignorable. *)
Record CaseTable : Type := {
  lowerOf : N -> list N;
  cased : N -> bool;
  caseIgnorable : N -> bool
}.

(** Going through [cps], a cased letter comes after case-ignorable code
    points only. *)
Fixpoint reachesCased (tbl : CaseTable) (cps : list N) : bool :=
  match cps with
  | [] => false
  | c :: rest =>
      if cased tbl c then true
      else if caseIgnorable tbl c then reachesCased tbl rest
      else false
  end.

(** The condition Final_Sigma: a cased letter stands before (case-ignorable
    code points apart) and none stands after.  [before] is the text before
    the sigma, nearest code point first. *)
Definition finalSigma (tbl : CaseTable) (before after : list N) : bool :=
  reachesCased tbl before && negb (reachesCased tbl after).

(** Lower-casing of code points; U+03A3 becomes U+03C2 in final position. *)
Fixpoint lowerCodePoints (tbl : CaseTable) (before cps : list N) : list N :=
  match cps with
  | [] => []
  | c :: rest =>
      (if (c =? 931) && finalSigma tbl before rest then [962]
       else lowerOf tbl c)
      ++ lowerCodePoints tbl (c :: before) rest
  end.

Definition toLowerCase (tbl : CaseTable) (s : ustring) : ustring :=
  codeUnits (lowerCodePoints tbl [] (codePoints s)).

(** White space and line terminators of ECMAScript: TAB, LF, VT, FF, CR,
    SP, NBSP, U+1680, U+2000..U+200A, U+2028, U+2029, U+202F, U+205F,
    U+3000 and U+FEFF. *)
Definition is_white (u : N) : bool :=
  (9 <=? u) && (u <=? 13) || (u =? 32) || (u =? 160) || (u =? 5760)
  || (8192 <=? u) && (u <=? 8202) || (u =? 8232) || (u =? 8233)
  || (u =? 8239) || (u =? 8287) || (u =? 12288) || (u =? 65279).

Fixpoint trimStart (s : ustring) : ustring :=
  match s with
  | [] => []
  | u :: s' => if is_white u then trimStart s' else s
  end.

Fixpoint trimEnd (s : ustring) : ustring :=
  match s with
  | [] => []
  | u :: s' =>
      match trimEnd s' with
      | [] => if is_white u then [] else [u]
      | r => u :: r
      end
  end.

Definition trim (s : ustring) : ustring := trimEnd (trimStart s).

Fixpoint isPrefix (q s : ustring) : bool :=
  match q, s with
  | [], _ => true
  | _ :: _, [] => false
  | a :: q', b :: s' => (a =? b) && isPrefix q' s'
  end.

(** [s.includes(q)], on code units. *)
Fixpoint includes (s q : ustring) : bool :=
  if isPrefix q s then true
  else match s with
       | [] => false
       | _ :: s' => includes s' q
       end.

Record Product : Type := { code : ustring; desc : ustring }.

Definition matchesTerm (tbl : CaseTable) (term : ustring) (p : Product) : bool :=
  includes (toLowerCase tbl (code p)) (toLowerCase tbl term)
  || includes (toLowerCase tbl (desc p)) (toLowerCase tbl term).

(** The value the effect hands to [setFilteredProducts]. *)
Definition search (tbl : CaseTable) (term : ustring) (catalog : list Product)
  : list Product :=
  match trim term with
  | [] => []
  | _ :: _ => firstn 10 (filter (matchesTerm tbl term) catalog)
  end.

(** An excerpt of the Unicode case data, for the code points U+0000..U+00FF,
    U+0130, U+0131, the combining marks U+0300..U+036F and the Greek
    code points U+0384..U+03CE.  Code points outside the excerpt are given
    no mapping and no property here. *)
Definition excerpt : CaseTable :=
  {| lowerOf := fun c =>
       if (65 <=? c) && (c <=? 90) then [c + 32]
       else if (192 <=? c) && (c <=? 222) && negb (c =? 215) then [c + 32]
       else if c =? 304 then [105; 775]
       else if c =? 902 then [940]
       else if (904 <=? c) && (c <=? 906) then [c + 37]
       else if c =? 908 then [972]
       else if (910 <=? c) && (c <=? 911) then [c + 63]
       else if (913 <=? c) && (c <=? 939) && negb (c =? 930) then [c + 32]
       else [c];
     cased := fun c =>
       (65 <=? c) && (c <=? 90) || (97 <=? c) && (c <=? 122)
       || (c =? 170) || (c =? 181) || (c =? 186)
       || (192 <=? c) && (c <=? 255) && negb (c =? 215) && negb (c =? 247)
       || (c =? 304) || (c =? 305) || (c =? 837)
       || (c =? 902) || (904 <=? c) && (c <=? 906) || (c =? 908)
       || (910 <=? c) && (c <=? 974) && negb (c =? 930);
     caseIgnorable := fun c =>
       (c =? 39) || (c =? 46) || (c =? 58) || (c =? 94) || (c =? 96)
       || (c =? 168) || (c =? 173) || (c =? 175) || (c =? 180)
       || (c =? 183) || (c =? 184)
       || (768 <=? c) && (c <=? 879)
       || (c =? 900) || (c =? 901) || (c =? 903) |}.

(** A string of code units up to U+00FF as a string of 16-bit units. *)
Definition widen (s : string) : ustring :=
  map N_of_ascii (list_ascii_of_string s).

(** A product whose texts are strings of code units up to U+00FF. *)
Definition widenProduct (p : string * string) : Product :=
  {| code := widen (fst p); desc := widen (snd p) |}.

(** [q] occurs in [s] as a run of code units. *)
Definition Occurs (q s : ustring) : Prop :=
  exists pre post, s = pre ++ q ++ post.

(** What [search] looks for: the lower-cased code or description contains
    the lower-cased query. *)
Definition wantedLower (tbl : CaseTable) (q : ustring) (p : Product) : Prop :=
  Occurs (toLowerCase tbl q) (toLowerCase tbl (code p)) \/
  Occurs (toLowerCase tbl q) (toLowerCase tbl (desc p)).

(** Two code units that are equal or are the two cases of one letter. *)
Definition casePair (tbl : CaseTable) (c d : N) : Prop :=
  c = d \/ lowerOf tbl c = [d] \/ lowerOf tbl d = [c].

(** [q] is a case-insensitive substring of [s]: a run of [s] equals [q]
    unit by unit up to the case of the letters. *)
Definition occursIgnoringCase (tbl : CaseTable) (q s : ustring) : Prop :=
  exists pre mid post,
    s = pre ++ mid ++ post /\ Forall2 (casePair tbl) mid q.

Definition wantedIgnoringCase (tbl : CaseTable) (q : ustring) (p : Product) : Prop :=
  occursIgnoringCase tbl q (code p) \/ occursIgnoringCase tbl q (desc p).

End Utf16.

(* ------------------------------------------------------------------ *)
(** ** The records of [types.ts] *)

Module Store.
Record t : Type := mk { code : string; name : string }.
End Store.

Module Product.
Record t : Type := mk { code : string; desc : string }.
End Product.

Module RequestItem.
(** [RequestItem extends Product]. *)
Record t : Type := mk {
  code : string;
  desc : string;
  id : string;
  qty : number;
  reason : string
}.
End RequestItem.

Record MasterData : Type := {
  md_stores : list Store.t;
  md_items : list Product.t
}.

Inductive StatusType : Type := success | error | info | idle.

Record Status : Type := { type : StatusType; message : string }.

(* ------------------------------------------------------------------ *)
(** ** Component state and effects *)

(** The nine [useState] cells of [App]. *)
Record State : Type := {
  stores : list Store.t;
  products : list Product.t;
  requestItems : list RequestItem.t;
  selectedStore : string;
  searchTerm : string;
  filteredProducts : list Product.t;
  status : Status;
  isLoading : bool;
  isSubmitting : bool
}.

(** The endpoint constant imported from [./constants]; only its identity
    matters here. *)
Inductive Endpoint : Type := SCRIPT_URL.

Inductive Method : Type := GET | POST.
Inductive Mode : Type := cors | no_cors.

(** One entry of the submitted [items] array. *)
Record PayloadItem : Type := {
  procode : string;
  prodesc : string;
  pqty : string;
  preason : string
}.

(** The object handed to [JSON.stringify] in [handleSubmit]. *)
Record Payload : Type := {
  pstore : string;
  pitems : list PayloadItem
}.

(** A call of [fetch]; [body] stands for the JSON text of the payload. *)
Record Request : Type := {
  url : Endpoint;
  method : Method;
  mode : Mode;
  body : option Payload
}.

(** Every timer callback of [App] is [() => setStatus(st)]. *)
Inductive Effect : Type :=
| SetTimeout (callback_status : Status) (delay : Z)
| Fetch (r : Request)
| ConsoleError (label : string).

(** A handler body: state of the render in, next state and effects out. *)
Definition Action : Type := State -> State * list Effect.

Definition andThen (a b : Action) : Action :=
  fun s => let '(s1, e1) := a s in
           let '(s2, e2) := b s1 in
           (s2, (e1 ++ e2)%list).

Declare Scope action_scope.
Delimit Scope action_scope with action.
Bind Scope action_scope with Action.
Notation "a ;; b" := (andThen a b)
  (at level 61, right associativity) : action_scope.
Local Open Scope action_scope.

Definition skip : Action := fun s => (s, []).
Definition emit (e : Effect) : Action := fun s => (s, [e]).

Definition setStores (v : list Store.t) : Action := fun s =>
  ({| stores := v; products := products s; requestItems := requestItems s;
      selectedStore := selectedStore s; searchTerm := searchTerm s;
      filteredProducts := filteredProducts s; status := status s;
      isLoading := isLoading s; isSubmitting := isSubmitting s |}, []).

Definition setProducts (v : list Product.t) : Action := fun s =>
  ({| stores := stores s; products := v; requestItems := requestItems s;
      selectedStore := selectedStore s; searchTerm := searchTerm s;
      filteredProducts := filteredProducts s; status := status s;
      isLoading := isLoading s; isSubmitting := isSubmitting s |}, []).

(** [setRequestItems(prev => f prev)]; a plain value is a constant [f]. *)
Definition setRequestItems
  (f : list RequestItem.t -> list RequestItem.t) : Action := fun s =>
  ({| stores := stores s; products := products s;
      requestItems := f (requestItems s);
      selectedStore := selectedStore s; searchTerm := searchTerm s;
      filteredProducts := filteredProducts s; status := status s;
      isLoading := isLoading s; isSubmitting := isSubmitting s |}, []).

Definition setSelectedStore (v : string) : Action := fun s =>
  ({| stores := stores s; products := products s;
      requestItems := requestItems s;
      selectedStore := v; searchTerm := searchTerm s;
      filteredProducts := filteredProducts s; status := status s;
      isLoading := isLoading s; isSubmitting := isSubmitting s |}, []).

Definition setSearchTerm (v : string) : Action := fun s =>
  ({| stores := stores s; products := products s;
      requestItems := requestItems s;
      selectedStore := selectedStore s; searchTerm := v;
      filteredProducts := filteredProducts s; status := status s;
      isLoading := isLoading s; isSubmitting := isSubmitting s |}, []).

Definition setFilteredProducts (v : list Product.t) : Action := fun s =>
  ({| stores := stores s; products := products s;
      requestItems := requestItems s;
      selectedStore := selectedStore s; searchTerm := searchTerm s;
      filteredProducts := v; status := status s;
      isLoading := isLoading s; isSubmitting := isSubmitting s |}, []).

Definition setStatus (v : Status) : Action := fun s =>
  ({| stores := stores s; products := products s;
      requestItems := requestItems s;
      selectedStore := selectedStore s; searchTerm := searchTerm s;
      filteredProducts := filteredProducts s; status := v;
      isLoading := isLoading s; isSubmitting := isSubmitting s |}, []).

Definition setIsLoading (v : bool) : Action := fun s =>
  ({| stores := stores s; products := products s;
      requestItems := requestItems s;
      selectedStore := selectedStore s; searchTerm := searchTerm s;
      filteredProducts := filteredProducts s; status := status s;
      isLoading := v; isSubmitting := isSubmitting s |}, []).

Definition setIsSubmitting (v : bool) : Action := fun s =>
  ({| stores := stores s; products := products s;
      requestItems := requestItems s;
      selectedStore := selectedStore s; searchTerm := searchTerm s;
      filteredProducts := filteredProducts s; status := status s;
      isLoading := isLoading s; isSubmitting := v |}, []).

Definition setTimeout (callback_status : Status) (delay : Z) : Action :=
  emit (SetTimeout callback_status delay).

Definition idleStatus : Status := {| type := idle; message := "" |}.

(** The initial values of the [useState] cells. *)
Definition initialState : State :=
  {| stores := []; products := []; requestItems := [];
     selectedStore := ""; searchTerm := ""; filteredProducts := [];
     status := idleStatus; isLoading := true; isSubmitting := false |}.

(* ------------------------------------------------------------------ *)
(** ** Catalog load ([fetchMasterData]) *)

Inductive MasterOutcome : Type :=
| MasterOk (data : MasterData)          (* [res.ok], body parsed *)
| MasterNotOk (statusText : string)     (* [!res.ok] *)
| MasterThrew (errorMessage : string).  (* [fetch] or [res.json] threw *)

Definition masterRequest : Request :=
  {| url := SCRIPT_URL; method := GET; mode := cors; body := None |}.

(** Up to [await fetch(SCRIPT_URL)]. *)
Definition fetchMasterData_begin : Action :=
  setIsLoading true ;;
  setStatus {| type := info; message := "Loading master data..." |} ;;
  emit (Fetch masterRequest).

Definition loadFailure (errorMessage : string) : Action :=
  emit (ConsoleError "Failed to load master data:") ;;
  setStatus {| type := error;
               message := "Gagal load master data: " ++ errorMessage |}.

(** From the resumption of [await] through [finally]. *)
Definition fetchMasterData_settled (o : MasterOutcome) : Action :=
  match o with
  | MasterOk data =>
      setStores (md_stores data) ;;
      setProducts (md_items data) ;;
      setStatus idleStatus
  | MasterNotOk statusText =>
      loadFailure ("Network response was not ok: " ++ statusText)
  | MasterThrew errorMessage => loadFailure errorMessage
  end ;;
  setIsLoading false.

(* ------------------------------------------------------------------ *)
(** ** Search (the [filteredProducts] effect) *)

Definition matchesTerm (term : string) (p : Product.t) : bool :=
  includes (toLowerCase (Product.code p)) (toLowerCase term)
  || includes (toLowerCase (Product.desc p)) (toLowerCase term).

(** The value the effect hands to [setFilteredProducts]. *)
Definition search (term : string) (catalog : list Product.t)
  : list Product.t :=
  if String.eqb (trim term) "" then []
  else firstn 10 (filter (matchesTerm term) catalog).

Definition searchEffect : Action := fun s =>
  setFilteredProducts (search (searchTerm s) (products s)) s.

(** The [mousedown] listener, for a target outside the search container. *)
Definition handleClickOutside : Action := setFilteredProducts [].

(* ------------------------------------------------------------------ *)
(** ** Request list: [handleAddItem], [handleItemChange], [handleDeleteItem] *)

(** [requestItems.some(item => item.code === product.code)]. *)
Definition alreadyListed (product : Product.t) (s : State) : bool :=
  existsb (fun item => String.eqb (RequestItem.code item) (Product.code product))
          (requestItems s).

(** The template literal [`${product.code}-${Date.now()}`]; [now] is the
    reading of the clock. *)
Definition freshId (product : Product.t) (now : Z) : string :=
  Product.code product ++ "-" ++ toString (Int now).

Definition newItem (product : Product.t) (now : Z) : RequestItem.t :=
  {| RequestItem.code := Product.code product;
     RequestItem.desc := Product.desc product;
     RequestItem.id := freshId product now;
     RequestItem.qty := Int 1;
     RequestItem.reason := "" |}.

Definition duplicateNotice : Status :=
  {| type := info; message := "Produk sudah ada di daftar." |}.

Definition handleAddItem (product : Product.t) (now : Z) : Action := fun s =>
  if alreadyListed product s then
    (setStatus duplicateNotice ;;
     setTimeout idleStatus 3000) s
  else
    (setRequestItems (fun prevItems => (prevItems ++ [newItem product now])%list) ;;
     setSearchTerm "" ;;
     setFilteredProducts []) s.

(** The two shapes of [(field, value)] that the call sites of
    [handleItemChange] pass: a number for ['qty'], a string for ['reason']. *)
Inductive FieldValue : Type :=
| OfQty (value : number)
| OfReason (value : string).

(** [{ ...item, [field]: value }]. *)
Definition withField (item : RequestItem.t) (fv : FieldValue) : RequestItem.t :=
  match fv with
  | OfQty value =>
      {| RequestItem.code := RequestItem.code item;
         RequestItem.desc := RequestItem.desc item;
         RequestItem.id := RequestItem.id item;
         RequestItem.qty := value;
         RequestItem.reason := RequestItem.reason item |}
  | OfReason value =>
      {| RequestItem.code := RequestItem.code item;
         RequestItem.desc := RequestItem.desc item;
         RequestItem.id := RequestItem.id item;
         RequestItem.qty := RequestItem.qty item;
         RequestItem.reason := value |}
  end.

Definition handleItemChange (id : string) (fv : FieldValue) : Action :=
  setRequestItems (fun prevItems =>
    map (fun item => if String.eqb (RequestItem.id item) id
                     then withField item fv else item)
        prevItems).

Definition handleDeleteItem (id : string) : Action :=
  setRequestItems (fun prevItems =>
    filter (fun item => negb (String.eqb (RequestItem.id item) id)) prevItems).

(** What the quantity input stores for the text [value]. *)
Definition coercedQty (value : string) : number :=
  or_else (parseInt value) (Int 1).

(** [onChange] of the quantity input of the row showing [item]:
    [handleItemChange(item.id, 'qty', parseInt(e.target.value) || 1)]. *)
Definition qtyOnChange (item : RequestItem.t) (value : string) : Action :=
  handleItemChange (RequestItem.id item) (OfQty (coercedQty value)).

(** [onChange] of the reason input of the row showing [item]. *)
Definition reasonOnChange (item : RequestItem.t) (value : string) : Action :=
  handleItemChange (RequestItem.id item) (OfReason value).

(* ------------------------------------------------------------------ *)
(** ** Submission ([handleSubmit]) *)

Inductive FetchOutcome : Type :=
| Fulfilled    (* the promise of [fetch] resolved; the response is opaque *)
| Rejected.    (* [fetch] threw: a network-level failure *)

Definition noStoreError : Status :=
  {| type := error; message := "Pilih store terlebih dahulu!" |}.
Definition noItemError : Status :=
  {| type := error; message := "Tambahkan minimal satu item!" |}.
Definition sendingNotice : Status :=
  {| type := info; message := "Mengirim data..." |}.
Definition submitSuccess : Status :=
  {| type := success;
     message := "✅ Data berhasil dikirim! Mohon periksa Google Sheet untuk konfirmasi." |}.
Definition submitFailure : Status :=
  {| type := error;
     message := "❌ Gagal submit: Terjadi kesalahan jaringan. Pastikan Anda terhubung ke internet." |}.

(** The two guards at the head of [handleSubmit], in their order; [Some st]
    is the status set before the early [return]. *)
Definition submitGuard (s : State) : option Status :=
  if String.eqb (selectedStore s) "" then Some noStoreError
  else if Nat.eqb (List.length (requestItems s)) 0 then Some noItemError
  else None.

Definition payloadItem (item : RequestItem.t) : PayloadItem :=
  {| procode := RequestItem.code item;
     prodesc := RequestItem.desc item;
     pqty := toString (RequestItem.qty item);
     preason := RequestItem.reason item |}.

Definition submitPayload (s : State) : Payload :=
  {| pstore := selectedStore s;
     pitems := map payloadItem (requestItems s) |}.

Definition submitRequest (p : Payload) : Request :=
  {| url := SCRIPT_URL; method := POST; mode := no_cors; body := Some p |}.

(** From the guards passed up to [await fetch(...)]. *)
Definition submitSend (s : State) : Action :=
  setIsSubmitting true ;;
  setStatus sendingNotice ;;
  emit (Fetch (submitRequest (submitPayload s))).

(** From the resumption of [await] through [finally]. *)
Definition handleSubmit_settled (o : FetchOutcome) : Action :=
  match o with
  | Fulfilled =>
      setStatus submitSuccess ;;
      setRequestItems (fun _ => []) ;;
      setSelectedStore "" ;;
      setTimeout idleStatus 5000
  | Rejected =>
      emit (ConsoleError "Submit error:") ;;
      setStatus submitFailure
  end ;;
  setIsSubmitting false.

(** The synchronous part of [handleSubmit], run by the click. *)
Definition handleSubmit_begin : Action := fun s =>
  match submitGuard s with
  | Some st => setStatus st s
  | None => submitSend s s
  end.

(** [handleSubmit] run to its end, the fetch settling with [o]. *)
Definition handleSubmit (o : FetchOutcome) : Action := fun s =>
  match submitGuard s with
  | Some st => setStatus st s
  | None => (submitSend s ;; handleSubmit_settled o) s
  end.

Definition fetches (es : list Effect) : list Request :=
  flat_map (fun e => match e with Fetch r => [r] | _ => [] end) es.

Definition timeouts (es : list Effect) : list (Status * Z) :=
  flat_map (fun e => match e with SetTimeout st d => [(st, d)] | _ => [] end) es.

(* ------------------------------------------------------------------ *)
(** ** The running component: events of the page, one at a time *)

(** The component together with what it has left pending in the runtime.
    [issued] is a history of the identifiers made by [handleAddItem]; it is
    not read by any handler. *)
Record World : Type := {
  ui : State;
  masterPending : bool;           (* the catalog fetch has not settled *)
  inflight : nat;                 (* submission fetches not yet settled *)
  timers : list (Status * Z);     (* timers set and not yet fired *)
  sent : list Request;            (* every request handed to [fetch] *)
  issued : list string
}.

Definition withUi (w : World) (s : State) : World :=
  {| ui := s; masterPending := masterPending w; inflight := inflight w;
     timers := timers w; sent := sent w; issued := issued w |}.

Definition absorb (w : World) (e : Effect) : World :=
  match e with
  | SetTimeout st d =>
      {| ui := ui w; masterPending := masterPending w; inflight := inflight w;
         timers := (timers w ++ [(st, d)])%list; sent := sent w;
         issued := issued w |}
  | Fetch r =>
      {| ui := ui w;
         masterPending := match method r with
                          | GET => true
                          | POST => masterPending w
                          end;
         inflight := match method r with
                     | GET => inflight w
                     | POST => S (inflight w)
                     end;
         timers := timers w; sent := (sent w ++ [r])%list;
         issued := issued w |}
  | ConsoleError _ => w
  end.

(** After a render, the search effect runs again when one of its
    dependencies [searchTerm], [products] has changed. *)
Definition rerender (productsReplaced : bool) (prev next : State) : State :=
  if productsReplaced || negb (String.eqb (searchTerm prev) (searchTerm next))
  then fst (searchEffect next)
  else next.

(** Run a handler on the current render, render again, and hand its
    effects to the runtime. *)
Definition dispatch (productsReplaced : bool) (h : Action) (w : World) : World :=
  let '(s', es) := h (ui w) in
  fold_left absorb es (withUi w (rerender productsReplaced (ui w) s')).

(** The first render and its mount effects. *)
Definition mount : World :=
  dispatch true fetchMasterData_begin
    {| ui := initialState; masterPending := false; inflight := 0%nat;
       timers := []; sent := []; issued := [] |}.

Inductive Event : Type :=
| MasterSettled (o : MasterOutcome)
| SelectStore (value : string)
| SearchInput (value : string)
| ClickOutside
| ClickProduct (k : nat) (now : Z)       (* k-th suggestion; clock reading *)
| QtyInput (row : nat) (value : string)
| ReasonInput (row : nat) (value : string)
| ClickDelete (row : nat)
| ClickSubmit
| SubmitSettled (o : FetchOutcome)
| TimerFires (k : nat).

(** The [value] of the option rendered for a store. *)
Definition storeOption (st : Store.t) : string :=
  "[" ++ Store.code st ++ "] " ++ Store.name st.

(** [disabled={isSubmitting || isLoading}] on the submit button. *)
Definition submitDisabled (s : State) : bool := isSubmitting s || isLoading s.

(** [disabled={isLoading || products.length === 0}] on the search input. *)
Definition searchDisabled (s : State) : bool :=
  isLoading s || Nat.eqb (List.length (products s)) 0.

Definition removeNth {A : Type} (k : nat) (l : list A) : list A :=
  (firstn k l ++ skipn (S k) l)%list.

(** One event; [None] when the page cannot produce it in this state (the
    control is disabled or not rendered, nothing is pending). *)
Definition step (w : World) (ev : Event) : option World :=
  let s := ui w in
  match ev with
  | MasterSettled o =>
      if masterPending w then
        let w' := dispatch (match o with MasterOk _ => true | _ => false end)
                           (fetchMasterData_settled o) w in
        Some {| ui := ui w'; masterPending := false; inflight := inflight w';
                timers := timers w'; sent := sent w'; issued := issued w' |}
      else None
  | SelectStore value =>
      if negb (isLoading s)
         && existsb (String.eqb value) ("" :: map storeOption (stores s))
      then Some (dispatch false (setSelectedStore value) w)
      else None
  | SearchInput value =>
      if searchDisabled s then None
      else Some (dispatch false (setSearchTerm value) w)
  | ClickOutside => Some (dispatch false handleClickOutside w)
  | ClickProduct k now =>
      match nth_error (filteredProducts s) k with
      | Some product =>
          let w' := dispatch false (handleAddItem product now) w in
          Some {| ui := ui w'; masterPending := masterPending w';
                  inflight := inflight w'; timers := timers w';
                  sent := sent w';
                  issued := if alreadyListed product s then issued w'
                            else (issued w' ++ [freshId product now])%list |}
      | None => None
      end
  | QtyInput row value =>
      match nth_error (requestItems s) row with
      | Some item => Some (dispatch false (qtyOnChange item value) w)
      | None => None
      end
  | ReasonInput row value =>
      match nth_error (requestItems s) row with
      | Some item => Some (dispatch false (reasonOnChange item value) w)
      | None => None
      end
  | ClickDelete row =>
      match nth_error (requestItems s) row with
      | Some item =>
          Some (dispatch false (handleDeleteItem (RequestItem.id item)) w)
      | None => None
      end
  | ClickSubmit =>
      if submitDisabled s then None
      else Some (dispatch false handleSubmit_begin w)
  | SubmitSettled o =>
      match inflight w with
      | O => None
      | S n =>
          let w' := dispatch false (handleSubmit_settled o) w in
          Some {| ui := ui w'; masterPending := masterPending w';
                  inflight := n; timers := timers w'; sent := sent w';
                  issued := issued w' |}
      end
  | TimerFires k =>
      match nth_error (timers w) k with
      | Some (st, _) =>
          let w' := dispatch false (setStatus st) w in
          Some {| ui := ui w'; masterPending := masterPending w';
                  inflight := inflight w'; timers := removeNth k (timers w');
                  sent := sent w'; issued := issued w' |}
      | None => None
      end
  end.

Fixpoint run (w : World) (evs : list Event) : option World :=
  match evs with
  | [] => Some w
  | ev :: evs' =>
      match step w ev with
      | Some w' => run w' evs'
      | None => None
      end
  end.

(** The states a session can be in. *)
Definition reachable (w : World) : Prop := exists evs, run mount evs = Some w.

(* ------------------------------------------------------------------ *)
(** ** Vocabulary of the properties *)

(** Two strings that differ at most in the case of their letters. *)
Inductive sameIgnoringCase : string -> string -> Prop :=
| sic_empty : sameIgnoringCase "" ""
| sic_unit : forall c d a b,
    lower_unit c = lower_unit d ->
    sameIgnoringCase a b ->
    sameIgnoringCase (String c a) (String d b).

(** [q] is a case-insensitive substring of [s]. *)
Definition occursIgnoringCase (q s : string) : Prop :=
  exists pre mid post, s = pre ++ mid ++ post /\ sameIgnoringCase mid q.

(** The products the specification asks for: the code or the description
    contains the query. *)
Definition wanted (q : string) (p : Product.t) : Prop :=
  occursIgnoringCase q (Product.code p) \/ occursIgnoringCase q (Product.desc p).

(** [r] lists, in the order of [l], the first [n] elements of [l] that
    satisfy [P] (all of them when there are fewer than [n]). *)
Inductive firstMatches {A : Type} (P : A -> Prop)
  : nat -> list A -> list A -> Prop :=
| fm_done : forall n, firstMatches P n [] []
| fm_full : forall l, firstMatches P 0 l []
| fm_take : forall n x l r,
    P x -> firstMatches P n l r -> firstMatches P (S n) (x :: l) (x :: r)
| fm_skip : forall n x l r,
    ~ P x -> firstMatches P n l r -> firstMatches P n (x :: l) r.

(** The product codes of a request list, in order. *)
Definition codes (l : list RequestItem.t) : list string :=
  map RequestItem.code l.

(** The line items of [l] for the product code [c]. *)
Definition withCode (c : string) (l : list RequestItem.t) : list RequestItem.t :=
  filter (fun item => String.eqb (RequestItem.code item) c) l.

(** What holds of the component at every moment of a session. *)
Record Inv (w : World) : Prop := {
  inv_inflight : inflight w = if isSubmitting (ui w) then 1%nat else 0%nat;
  inv_codes : NoDup (codes (requestItems (ui w)))
}.

(** A handler that touches neither [isSubmitting] nor the fetch queue. *)
Definition quiet (h : Action) : Prop :=
  forall s, isSubmitting (fst (h s)) = isSubmitting s /\ fetches (snd (h s)) = [].

(** The number of POST requests among the effects of a handler. *)
Definition posts (es : list Effect) : nat :=
  List.length (filter (fun r => match method r with POST => true | GET => false end)
                      (fetches es)).

(** The catalog of the scenarios of the specification. *)
Definition demoCatalog : MasterData :=
  {| md_stores := [Store.mk "S1" "Store One"];
     md_items := [Product.mk "P1" "Widget"] |}.

(** A session in which a store is chosen, a product is found and added, and
    the submit button is clicked. *)
Definition demoSubmitting : list Event :=
  [MasterSettled (MasterOk demoCatalog); SelectStore "[S1] Store One";
   SearchInput "wid"; ClickProduct 0 1000; QtyInput 0 "5"; ClickSubmit].

(** The identifiers of a request list, in order. *)
Definition ids (l : list RequestItem.t) : list string :=
  map RequestItem.id l.

(** [r] is [l] with some elements left out, the others in their order. *)
Inductive Subseq {A : Type} : list A -> list A -> Prop :=
| subseq_nil : Subseq [] []
| subseq_keep : forall x r l, Subseq r l -> Subseq (x :: r) (x :: l)
| subseq_drop : forall x r l, Subseq r l -> Subseq r (x :: l).

(** Every code unit of [s] is white space (so is the empty string). *)
Fixpoint allWhite (s : string) : bool :=
  match s with
  | EmptyString => true
  | String c s' => is_white c && allWhite s'
  end.

(** The number written by the decimal digits [d], most significant first,
    after the digits already read as [acc]. *)
Fixpoint uintValue (d : Decimal.uint) (acc : Z) : Z :=
  match d with
  | Decimal.Nil => acc
  | Decimal.D0 d' => uintValue d' (acc * 10 + 0)
  | Decimal.D1 d' => uintValue d' (acc * 10 + 1)
  | Decimal.D2 d' => uintValue d' (acc * 10 + 2)
  | Decimal.D3 d' => uintValue d' (acc * 10 + 3)
  | Decimal.D4 d' => uintValue d' (acc * 10 + 4)
  | Decimal.D5 d' => uintValue d' (acc * 10 + 5)
  | Decimal.D6 d' => uintValue d' (acc * 10 + 6)
  | Decimal.D7 d' => uintValue d' (acc * 10 + 7)
  | Decimal.D8 d' => uintValue d' (acc * 10 + 8)
  | Decimal.D9 d' => uintValue d' (acc * 10 + 9)
  end.

(** The event [ev] is available in [w] and runs the handler [h];
    [productsReplaced] tells whether the render that follows sees a new
    [products] array. *)
Inductive fires (w : World) : Event -> bool -> Action -> Prop :=
| fires_master_ok : forall data,
    masterPending w = true ->
    fires w (MasterSettled (MasterOk data)) true
          (fetchMasterData_settled (MasterOk data))
| fires_master_not_ok : forall statusText,
    masterPending w = true ->
    fires w (MasterSettled (MasterNotOk statusText)) false
          (fetchMasterData_settled (MasterNotOk statusText))
| fires_master_threw : forall errorMessage,
    masterPending w = true ->
    fires w (MasterSettled (MasterThrew errorMessage)) false
          (fetchMasterData_settled (MasterThrew errorMessage))
| fires_select : forall value,
    isLoading (ui w) = false ->
    In value ("" :: map storeOption (stores (ui w))) ->
    fires w (SelectStore value) false (setSelectedStore value)
| fires_search : forall value,
    isLoading (ui w) = false ->
    products (ui w) <> [] ->
    fires w (SearchInput value) false (setSearchTerm value)
| fires_outside : fires w ClickOutside false handleClickOutside
| fires_product : forall k now product,
    nth_error (filteredProducts (ui w)) k = Some product ->
    fires w (ClickProduct k now) false (handleAddItem product now)
| fires_qty : forall row value item,
    nth_error (requestItems (ui w)) row = Some item ->
    fires w (QtyInput row value) false (qtyOnChange item value)
| fires_reason : forall row value item,
    nth_error (requestItems (ui w)) row = Some item ->
    fires w (ReasonInput row value) false (reasonOnChange item value)
| fires_delete : forall row item,
    nth_error (requestItems (ui w)) row = Some item ->
    fires w (ClickDelete row) false (handleDeleteItem (RequestItem.id item))
| fires_submit :
    isSubmitting (ui w) = false ->
    isLoading (ui w) = false ->
    fires w ClickSubmit false handleSubmit_begin
| fires_settled : forall o,
    (0 < inflight w)%nat ->
    fires w (SubmitSettled o) false (handleSubmit_settled o)
| fires_timer : forall k st d,
    nth_error (timers w) k = Some (st, d) ->
    fires w (TimerFires k) false (setStatus st).

Definition isGet (r : Request) : bool :=
  match method r with GET => true | POST => false end.

Definition isPost (r : Request) : bool :=
  match method r with GET => false | POST => true end.

(** A product of the catalog with this code and this description. *)
Definition fromCatalog (catalog : list Product.t) (c d : string) : Prop :=
  exists p, In p catalog /\ Product.code p = c /\ Product.desc p = d.

(** A line item as the handlers make them: code and description of a
    catalog product, a non-zero integer quantity, and an identifier made of
    the code, a dash and the numeral of a clock reading. *)
Definition wellFormedItem (catalog : list Product.t) (item : RequestItem.t) : Prop :=
  fromCatalog catalog (RequestItem.code item) (RequestItem.desc item) /\
  (exists z, RequestItem.qty item = Int z /\ z <> 0) /\
  (exists t, RequestItem.id item =
             RequestItem.code item ++ "-" ++ toString (Int t)).

Definition wellFormedEntry (catalog : list Product.t) (e : PayloadItem) : Prop :=
  fromCatalog catalog (procode e) (prodesc e) /\
  (exists z, z <> 0 /\ pqty e = toString (Int z)).

(** A submission request as [handleSubmit] sends them in a session. *)
Definition wellFormedPost (storeList : list Store.t) (catalog : list Product.t)
  (r : Request) : Prop :=
  url r = SCRIPT_URL /\ mode r = no_cors /\
  exists p, body r = Some p /\
            pstore p <> "" /\
            In (pstore p) (map storeOption storeList) /\
            pitems p <> [] /\
            Forall (wellFormedEntry catalog) (pitems p) /\
            NoDup (map procode (pitems p)).

Definition wellFormedTimer (t : Status * Z) : Prop :=
  fst t = idleStatus /\ (snd t = 3000 \/ snd t = 5000).

(** What holds, beside [Inv], of the cells of the component, of the
    pending catalog fetch, of the requests sent and of the pending timers
    at every moment of a session. *)
Record ShapeOf (s : State) (pending : bool) (rs : list Request)
  (ts : list (Status * Z)) : Prop := {
  sh_pending : pending = isLoading s;
  sh_loading : isLoading s = true ->
               stores s = [] /\ products s = [] /\ requestItems s = [] /\
               selectedStore s = "" /\ searchTerm s = "" /\
               filter isPost rs = [];
  sh_get : filter isGet rs = [masterRequest];
  sh_suggest : incl (filteredProducts s) (products s);
  sh_items : Forall (wellFormedItem (products s)) (requestItems s);
  sh_store : In (selectedStore s) ("" :: map storeOption (stores s));
  sh_posts : Forall (wellFormedPost (stores s) (products s)) (filter isPost rs);
  sh_timers : Forall wellFormedTimer ts
}.

Definition Shape (w : World) : Prop :=
  ShapeOf (ui w) (masterPending w) (sent w) (timers w).

(** The clock reading of an add click is not negative. *)
Definition clockOk (ev : Event) : Prop :=
  match ev with
  | ClickProduct _ now => 0 <= now
  | _ => True
  end.

(** The identifier of the item ends in the numeral of a clock reading that
    is not negative. *)
Definition idOfClock (item : RequestItem.t) : Prop :=
  exists t, 0 <= t /\
            RequestItem.id item = RequestItem.code item ++ "-" ++ toString (Int t).

(** No code unit of [s] is the dash. *)
Fixpoint noDash (s : string) : bool :=
  match s with
  | EmptyString => true
  | String c s' => negb (Ascii.eqb c "-") && noDash s'
  end.

(** A catalog with two products, and a session in which both are added at
    the same clock reading and the first is then clicked again, which is
    rejected and leaves its timer pending. *)
Definition demoTwoProducts : MasterData :=
  {| md_stores := [Store.mk "S1" "Store One"];
     md_items := [Product.mk "P1" "Widget"; Product.mk "P2" "Gadget"] |}.

Definition demoTwoRows : list Event :=
  [MasterSettled (MasterOk demoTwoProducts);
   SearchInput "dget"; ClickProduct 0 1000;
   SearchInput "dget"; ClickProduct 1 1000;
   SearchInput "wid"; ClickProduct 0 1001].

Definition demoTwoRowsWorld : World :=
  match run mount demoTwoRows with
  | Some w => w
  | None => mount
  end.

(** The world after the events of [demoSubmitting]. *)
Definition demoWorld : World :=
  match run mount demoSubmitting with
  | Some w => w
  | None => mount
  end.

(* ------------------------------------------------------------------ *)
(** * Properties *)

(** ** Search *)

Section SearchSpec.

Lemma prefix_app : forall q s,
  String.prefix q s = true <-> exists post, s = q ++ post.
Proof.
  induction q as [|c q IH]; intros [|d s]; simpl.
  - split; [intros _; exists ""; reflexivity | reflexivity].
  - split; [intros _; exists (String d s); reflexivity | reflexivity].
  - split; [discriminate | intros [post H]; discriminate].
  - destruct (ascii_dec c d) as [->|Hcd].
    + rewrite IH. split; intros [post H]; exists post.
      * now rewrite H.
      * now injection H.
    + split; [discriminate | intros [post H]; injection H; congruence].
Qed.

Lemma includes_unfold : forall s q,
  includes s q =
  if String.prefix q s then true
  else match s with
       | EmptyString => false
       | String _ s' => includes s' q
       end.
Proof. intros [|c s] q; reflexivity. Qed.

Lemma includes_app : forall s q,
  includes s q = true <-> exists pre post, s = pre ++ q ++ post.
Proof.
  induction s as [|c s IH]; intros q; rewrite includes_unfold.
  - destruct (String.prefix q "") eqn:Hp.
    + apply prefix_app in Hp. destruct Hp as [post Hp].
      split; [intros _; exists "", post; exact Hp | reflexivity].
    + split; [discriminate|]. intros [pre [post H]].
      destruct pre; simpl in H; [|discriminate].
      assert (String.prefix q "" = true) by (apply prefix_app; eauto).
      congruence.
  - destruct (String.prefix q (String c s)) eqn:Hp.
    + apply prefix_app in Hp. destruct Hp as [post Hp].
      split; [intros _; exists "", post; exact Hp | reflexivity].
    + rewrite IH. split.
      * intros [pre [post H]]. exists (String c pre), post. simpl. now rewrite H.
      * intros [pre [post H]]. destruct pre as [|d pre]; simpl in H.
        -- assert (String.prefix q (String c s) = true)
             by (apply prefix_app; eauto).
           congruence.
        -- injection H as _ H. eauto.
Qed.

Lemma toLowerCase_app : forall a b,
  toLowerCase (a ++ b) = toLowerCase a ++ toLowerCase b.
Proof.
  induction a as [|c a IH]; intros b; simpl; [reflexivity | now rewrite IH].
Qed.

Lemma toLowerCase_split : forall s a b,
  toLowerCase s = a ++ b ->
  exists s1 s2, s = s1 ++ s2 /\ toLowerCase s1 = a /\ toLowerCase s2 = b.
Proof.
  intros s a. revert s.
  induction a as [|c a IH]; intros s b H; simpl in H.
  - exists "", s. auto.
  - destruct s as [|d s]; simpl in H; [discriminate|].
    injection H as Hc H. destruct (IH _ _ H) as [s1 [s2 [-> [H1 H2]]]].
    exists (String d s1), s2. simpl. now rewrite Hc, H1, H2.
Qed.

Lemma sameIgnoringCase_lower : forall a b,
  sameIgnoringCase a b <-> toLowerCase a = toLowerCase b.
Proof.
  split.
  - induction 1; simpl; congruence.
  - revert b. induction a as [|c a IH]; intros [|d b] H; simpl in H;
      try discriminate; [constructor|].
    injection H as Hc H. constructor; auto.
Qed.

Lemma occurs_includes : forall q s,
  includes (toLowerCase s) (toLowerCase q) = true <-> occursIgnoringCase q s.
Proof.
  intros q s. rewrite includes_app. split.
  - intros [pre [post H]].
    apply toLowerCase_split in H. destruct H as [s1 [s23 [-> [H1 H23]]]].
    apply toLowerCase_split in H23. destruct H23 as [s2 [s3 [-> [H2 H3]]]].
    exists s1, s2, s3. split; [reflexivity|].
    now apply sameIgnoringCase_lower.
  - intros [pre [mid [post [-> Hm]]]].
    apply sameIgnoringCase_lower in Hm.
    exists (toLowerCase pre), (toLowerCase post).
    now rewrite !toLowerCase_app, Hm.
Qed.

Lemma matchesTerm_wanted : forall q p,
  matchesTerm q p = true <-> wanted q p.
Proof.
  intros q p. unfold matchesTerm, wanted.
  rewrite orb_true_iff, !occurs_includes. reflexivity.
Qed.

Lemma firstn_filter_firstMatches :
  forall {A : Type} (P : A -> Prop) (f : A -> bool),
    (forall x, f x = true <-> P x) ->
    forall l n, firstMatches P n l (firstn n (filter f l)).
Proof.
  intros A P f Hf. induction l as [|x l IH]; intros n; simpl.
  - rewrite firstn_nil. constructor.
  - destruct (f x) eqn:Hx.
    + destruct n as [|n]; simpl; [constructor|].
      apply fm_take; [now apply Hf | apply IH].
    + apply fm_skip; [|apply IH].
      intros HP. apply Hf in HP. congruence.
Qed.

Lemma firstMatches_zero :
  forall {A : Type} (P : A -> Prop) l r, firstMatches P 0 l r -> r = [].
Proof.
  intros A P l r H. remember 0%nat as n eqn:Hn.
  induction H; try reflexivity; try discriminate; auto.
Qed.

(** [firstMatches] determines its result. *)
Lemma firstMatches_unique :
  forall {A : Type} (P : A -> Prop) n l r1 r2,
    firstMatches P n l r1 -> firstMatches P n l r2 -> r1 = r2.
Proof.
  intros A P n l r1 r2 H1. revert r2.
  induction H1; intros r2 H2.
  - inversion H2; reflexivity.
  - symmetry. eapply firstMatches_zero; eassumption.
  - inversion H2; subst; [f_equal; auto | contradiction].
  - inversion H2; subst; try contradiction; auto.
    apply firstMatches_zero in H1. now subst.
Qed.

Lemma firstMatches_length :
  forall {A : Type} (P : A -> Prop) n l r,
    firstMatches P n l r -> (List.length r <= n)%nat.
Proof. induction 1; simpl; lia. Qed.

End SearchSpec.

(** On strings of code units up to U+00FF, where lower-casing acts unit by
    unit: [search] returns the empty list for a query that is blank once
    trimmed, and for any other query the first at most 10 products, in
    catalog order, whose code or description contains the query as a
    case-insensitive substring. *)
Lemma search_latin1_first_ten_matches : forall (q : string) (catalog : list Product.t),
  (trim q = "" -> search q catalog = []) /\
  (trim q <> "" -> firstMatches (wanted q) 10 catalog (search q catalog)).
Proof.
  intros q catalog. unfold search. split.
  - intros ->. reflexivity.
  - intros Hq. destruct (String.eqb_spec (trim q) ""); [contradiction|].
    apply firstn_filter_firstMatches. apply matchesTerm_wanted.
Qed.

(** *** The search on UTF-16 strings *)

Section SearchUtf16.

Import Utf16.

Lemma isPrefix_app : forall q s,
  isPrefix q s = true <-> exists post, s = (q ++ post)%list.
Proof.
  induction q as [|a q IH]; intros [|b s]; simpl.
  - split; [intros _; exists []; reflexivity | reflexivity].
  - split; [intros _; exists (b :: s); reflexivity | reflexivity].
  - split; [discriminate | intros [post H]; discriminate].
  - rewrite andb_true_iff, IH, N.eqb_eq. split.
    + intros [-> [post ->]]. exists post. reflexivity.
    + intros [post H]. injection H as -> ->. split; [reflexivity | eauto].
Qed.

Lemma includes_unfold16 : forall s q,
  includes s q =
  if isPrefix q s then true
  else match s with
       | [] => false
       | _ :: s' => includes s' q
       end.
Proof. intros [|u s] q; reflexivity. Qed.

Lemma includes_Occurs : forall s q, includes s q = true <-> Occurs q s.
Proof.
  unfold Occurs.
  induction s as [|u s IH]; intros q; rewrite includes_unfold16.
  - destruct (isPrefix q []) eqn:Hp.
    + apply isPrefix_app in Hp. destruct Hp as [post Hp].
      split; [intros _; exists [], post; exact Hp | reflexivity].
    + split; [discriminate|]. intros [pre [post H]].
      destruct pre; simpl in H; [|discriminate].
      assert (isPrefix q [] = true) by (apply isPrefix_app; eauto).
      congruence.
  - destruct (isPrefix q (u :: s)) eqn:Hp.
    + apply isPrefix_app in Hp. destruct Hp as [post Hp].
      split; [intros _; exists [], post; exact Hp | reflexivity].
    + rewrite IH. split.
      * intros [pre [post H]]. exists (u :: pre), post. simpl. now rewrite H.
      * intros [pre [post H]]. destruct pre as [|v pre]; simpl in H.
        -- assert (isPrefix q (u :: s) = true) by (apply isPrefix_app; eauto).
           congruence.
        -- injection H as _ H. eauto.
Qed.

Lemma matchesTerm_wantedLower : forall tbl q p,
  matchesTerm tbl q p = true <-> wantedLower tbl q p.
Proof.
  intros tbl q p. unfold matchesTerm, wantedLower.
  rewrite orb_true_iff, !includes_Occurs. reflexivity.
Qed.

Lemma Forall2_casePair_refl : forall tbl q, Forall2 (casePair tbl) q q.
Proof. induction q; constructor; [now left | assumption]. Qed.

(** A literal substring is a case-insensitive substring. *)
Lemma Occurs_occursIgnoringCase : forall tbl q s,
  Occurs q s -> occursIgnoringCase tbl q s.
Proof.
  intros tbl q s [pre [post H]]. exists pre, q, post.
  split; [assumption | apply Forall2_casePair_refl].
Qed.

End SearchUtf16.

(** *** The search on strings up to U+00FF is the search on UTF-16 strings *)

Section Latin1.

Lemma N_of_ascii_small : forall c, (N_of_ascii c < 256)%N.
Proof. intros [[] [] [] [] [] [] [] []]; reflexivity. Qed.

Lemma codePoints_small : forall l,
  Forall (fun u => (u < 55296)%N) l -> Utf16.codePoints l = l.
Proof.
  induction l as [|h t IH]; intros H; [reflexivity|].
  inversion H as [|? ? Hh Ht]; subst.
  change (Utf16.codePoints (h :: t)) with
    (match t with
     | l :: t' =>
         if Utf16.isHighSurrogate h && Utf16.isLowSurrogate l
         then (65536 + (h - 55296) * 1024 + (l - 56320))%N :: Utf16.codePoints t'
         else h :: Utf16.codePoints t
     | [] => [h]
     end).
  destruct t as [|l t']; [reflexivity|].
  unfold Utf16.isHighSurrogate.
  replace (55296 <=? h)%N with false by (symmetry; apply N.leb_gt; assumption).
  cbn [andb]. f_equal. apply IH. assumption.
Qed.

Lemma lowerOf_small : forall c,
  Utf16.lowerOf Utf16.excerpt (N_of_ascii c) = [N_of_ascii (lower_unit c)].
Proof. intros [[] [] [] [] [] [] [] []]; reflexivity. Qed.

Lemma lowerCodePoints_small : forall l before,
  Utf16.lowerCodePoints Utf16.excerpt before (map N_of_ascii l) =
  map N_of_ascii (map lower_unit l).
Proof.
  induction l as [|c l IH]; intros before; [reflexivity|].
  cbn [map Utf16.lowerCodePoints].
  replace (N_of_ascii c =? 931)%N with false.
  - cbn [andb]. rewrite lowerOf_small, IH. reflexivity.
  - symmetry. apply N.eqb_neq. pose proof (N_of_ascii_small c). lia.
Qed.

Lemma codeUnits_small : forall l,
  Utf16.codeUnits (map N_of_ascii l) = map N_of_ascii l.
Proof.
  induction l as [|c l IH]; [reflexivity|].
  cbn [map Utf16.codeUnits flat_map]. fold (Utf16.codeUnits (map N_of_ascii l)).
  rewrite IH. unfold Utf16.encodeCodePoint.
  replace (N_of_ascii c <? 65536)%N with true; [reflexivity|].
  symmetry. apply N.ltb_lt. pose proof (N_of_ascii_small c). lia.
Qed.

Lemma chars_toLowerCase : forall s,
  list_ascii_of_string (toLowerCase s) = map lower_unit (list_ascii_of_string s).
Proof. induction s as [|c s IH]; simpl; [reflexivity | now rewrite IH]. Qed.

(** [toLowerCase] on strings up to U+00FF. *)
Lemma widen_toLowerCase : forall s,
  Utf16.toLowerCase Utf16.excerpt (Utf16.widen s) = Utf16.widen (toLowerCase s).
Proof.
  intros s. unfold Utf16.toLowerCase, Utf16.widen.
  rewrite codePoints_small.
  - rewrite lowerCodePoints_small, <- chars_toLowerCase. apply codeUnits_small.
  - apply Forall_forall. intros u Hu. apply in_map_iff in Hu.
    destruct Hu as [c [<- _]]. pose proof (N_of_ascii_small c). lia.
Qed.

Lemma is_white_small : forall c,
  Utf16.is_white (N_of_ascii c) = is_white c.
Proof. intros [[] [] [] [] [] [] [] []]; reflexivity. Qed.

Lemma widen_cons : forall c s,
  Utf16.widen (String c s) = N_of_ascii c :: Utf16.widen s.
Proof. reflexivity. Qed.

Lemma widen_trimStart : forall s,
  Utf16.trimStart (Utf16.widen s) = Utf16.widen (trimStart s).
Proof.
  induction s as [|c s IH]; [reflexivity|].
  rewrite widen_cons. cbn [Utf16.trimStart trimStart].
  rewrite is_white_small. destruct (is_white c); [exact IH | reflexivity].
Qed.

Lemma widen_trimEnd : forall s,
  Utf16.trimEnd (Utf16.widen s) = Utf16.widen (trimEnd s).
Proof.
  induction s as [|c s IH]; [reflexivity|].
  rewrite widen_cons. cbn [Utf16.trimEnd trimEnd].
  rewrite IH, is_white_small.
  destruct (trimEnd s) as [|d r]; [destruct (is_white c)|]; reflexivity.
Qed.

Lemma widen_trim : forall s, Utf16.trim (Utf16.widen s) = Utf16.widen (trim s).
Proof.
  intros s. unfold Utf16.trim, trim. now rewrite widen_trimStart, widen_trimEnd.
Qed.

Lemma N_of_ascii_eqb : forall a b,
  (N_of_ascii a =? N_of_ascii b)%N = if ascii_dec a b then true else false.
Proof.
  intros a b. destruct (ascii_dec a b) as [->|H].
  - apply N.eqb_refl.
  - apply N.eqb_neq. intros E. apply H.
    rewrite <- (ascii_N_embedding a), <- (ascii_N_embedding b). now rewrite E.
Qed.

Lemma widen_isPrefix : forall q s,
  Utf16.isPrefix (Utf16.widen q) (Utf16.widen s) = String.prefix q s.
Proof.
  induction q as [|a q IH]; intros [|b s]; try reflexivity.
  rewrite !widen_cons. cbn [Utf16.isPrefix String.prefix].
  rewrite N_of_ascii_eqb, IH. destruct (ascii_dec a b); reflexivity.
Qed.

Lemma widen_includes : forall s q,
  Utf16.includes (Utf16.widen s) (Utf16.widen q) = includes s q.
Proof.
  induction s as [|c s IH]; intros q;
    rewrite includes_unfold, includes_unfold16, widen_isPrefix.
  - reflexivity.
  - rewrite widen_cons, IH. reflexivity.
Qed.

Lemma widen_matchesTerm : forall q p,
  Utf16.matchesTerm Utf16.excerpt (Utf16.widen q)
    (Utf16.widenProduct (Product.code p, Product.desc p))
  = matchesTerm q p.
Proof.
  intros q p. unfold Utf16.matchesTerm, matchesTerm, Utf16.widenProduct.
  cbn [Utf16.code Utf16.desc fst snd].
  now rewrite !widen_toLowerCase, !widen_includes.
Qed.

Lemma filter_map_comm : forall {A B : Type} (g : A -> B) (f : B -> bool) l,
  filter f (map g l) = map g (filter (fun x => f (g x)) l).
Proof.
  intros A B g f. induction l as [|x l IH]; simpl; [reflexivity|].
  destruct (f (g x)); simpl; now rewrite IH.
Qed.

(** On text up to U+00FF the search of the component is the search on
    UTF-16 strings. *)
Lemma search_widen : forall q catalog,
  Utf16.search Utf16.excerpt (Utf16.widen q)
    (map (fun p => Utf16.widenProduct (Product.code p, Product.desc p)) catalog)
  = map (fun p => Utf16.widenProduct (Product.code p, Product.desc p))
        (search q catalog).
Proof.
  intros q catalog. unfold Utf16.search, search. rewrite widen_trim.
  destruct (String.eqb_spec (trim q) "") as [->|Hq]; [reflexivity|].
  destruct (trim q) as [|c r]; [contradiction|]. rewrite widen_cons.
  rewrite filter_map_comm, firstn_map. do 2 f_equal.
  apply filter_ext. intros p. apply widen_matchesTerm.
Qed.

End Latin1.

(** C5 (as amended).  For every query, every catalog and every table of
    case data, [search] returns the empty list when the trimmed query is
    empty, and otherwise the first at most 10 products, in catalog order,
    whose lower-cased code or lower-cased description contains the
    lower-cased query as a substring. *)
Theorem C5_search_first_ten_lowercased :
  forall (tbl : Utf16.CaseTable) (q : Utf16.ustring) (catalog : list Utf16.Product),
    (Utf16.trim q = [] -> Utf16.search tbl q catalog = []) /\
    (Utf16.trim q <> [] ->
       firstMatches (Utf16.wantedLower tbl q) 10 catalog
                    (Utf16.search tbl q catalog)).
Proof.
  intros tbl q catalog. unfold Utf16.search. split.
  - intros ->. reflexivity.
  - intros Hq. destruct (Utf16.trim q) as [|u r]; [contradiction|].
    apply firstn_filter_firstMatches. apply matchesTerm_wantedLower.
Qed.

Lemma C5_search_first_ten_lowercased_witness :
  let p1 := {| Utf16.code := Utf16.widen "P1"; Utf16.desc := Utf16.widen "Widget" |} in
  let p2 := {| Utf16.code := Utf16.widen "Q2"; Utf16.desc := Utf16.widen "Gadget" |} in
  let p3 := {| Utf16.code := Utf16.widen "WID-9";
               Utf16.desc := [927; 916; 927; 931]%N |} in
  let blank := [32; 160; 65279]%N in
  Utf16.trim blank = [] /\
  Utf16.search Utf16.excerpt blank [p1; p2; p3] = [] /\
  Utf16.trim (Utf16.widen "wId") <> [] /\
  firstMatches (Utf16.wantedLower Utf16.excerpt (Utf16.widen "wId")) 10
               [p1; p2; p3]
               (Utf16.search Utf16.excerpt (Utf16.widen "wId") [p1; p2; p3]) /\
  Utf16.search Utf16.excerpt (Utf16.widen "wId") [p1; p2; p3] = [p1; p3].
Proof.
  intros p1 p2 p3 blank.
  split; [reflexivity|].
  split; [apply (proj1 (C5_search_first_ten_lowercased Utf16.excerpt blank
                          [p1; p2; p3])); reflexivity|].
  split; [vm_compute; discriminate|].
  split; [|reflexivity].
  apply (proj2 (C5_search_first_ten_lowercased Utf16.excerpt (Utf16.widen "wId")
                  [p1; p2; p3])).
  vm_compute; discriminate.
Defined.

(** The claim as it was stated fails on the query U+03A3 (capital sigma)
    and a product described as U+039F U+0394 U+039F U+03A3: the query is
    not blank and stands in the description as it is written, so it is a
    case-insensitive substring of it; but the description is lower-cased
    with a final sigma, U+03C2, and the query with U+03C3, so the product
    is not returned. *)
Lemma C5_final_sigma_counterexample :
  let q := [931]%N in
  let p := {| Utf16.code := Utf16.widen "G1";
              Utf16.desc := [927; 916; 927; 931]%N |} in
  Utf16.trim q <> [] /\
  Utf16.toLowerCase Utf16.excerpt (Utf16.desc p) = [959; 948; 959; 962]%N /\
  Utf16.toLowerCase Utf16.excerpt q = [963]%N /\
  Utf16.wantedIgnoringCase Utf16.excerpt q p /\
  Utf16.search Utf16.excerpt q [p] = [] /\
  ~ firstMatches (Utf16.wantedIgnoringCase Utf16.excerpt q) 10 [p]
                 (Utf16.search Utf16.excerpt q [p]).
Proof.
  intros q p.
  assert (Hw : Utf16.wantedIgnoringCase Utf16.excerpt q p).
  { right. apply Occurs_occursIgnoringCase.
    exists [927; 916; 927]%N, []. reflexivity. }
  split; [discriminate|]. split; [reflexivity|]. split; [reflexivity|].
  split; [exact Hw|]. split; [reflexivity|].
  change (Utf16.search Utf16.excerpt q [p]) with (@nil Utf16.Product).
  intros H. inversion H; subst. contradiction.
Qed.

(* ------------------------------------------------------------------ *)
(** ** Quantity input *)

Section Quantity.

Lemma coercedQty_not_NaN : forall value, coercedQty value <> NaN.
Proof.
  intros value. unfold coercedQty, or_else.
  destruct (parseInt value) as [|z]; simpl; [discriminate|].
  destruct (z =? 0); simpl; discriminate.
Qed.

Lemma coercedQty_unparseable : forall value,
  parseInt value = NaN -> coercedQty value = Int 1.
Proof. intros value H. unfold coercedQty. now rewrite H. Qed.

Lemma coercedQty_zero : forall value,
  parseInt value = Int 0 -> coercedQty value = Int 1.
Proof. intros value H. unfold coercedQty. now rewrite H. Qed.

(** A parsed non-zero integer is stored as it is, whatever its sign. *)
Lemma coercedQty_parsed : forall value z,
  parseInt value = Int z -> z <> 0 -> coercedQty value = Int z.
Proof.
  intros value z H Hz. unfold coercedQty, or_else. rewrite H. simpl.
  destruct (Z.eqb_spec z 0); [contradiction | reflexivity].
Qed.

(** [handleItemChange] writes the value into every item carrying the
    identifier and leaves the other items, and the order, as they were. *)
Lemma handleItemChange_nth : forall id fv s row item,
  nth_error (requestItems s) row = Some item ->
  nth_error (requestItems (fst (handleItemChange id fv s))) row =
  Some (if String.eqb (RequestItem.id item) id then withField item fv else item).
Proof.
  intros id fv s row item H. simpl.
  rewrite nth_error_map, H. reflexivity.
Qed.

Lemma qtyOnChange_row : forall s row item value,
  nth_error (requestItems s) row = Some item ->
  option_map RequestItem.qty
    (nth_error (requestItems (fst (qtyOnChange item value s))) row) =
  Some (coercedQty value).
Proof.
  intros s row item value H. unfold qtyOnChange.
  rewrite (handleItemChange_nth _ _ _ _ _ H), String.eqb_refl. reflexivity.
Qed.

End Quantity.

(** C1.  The quantity path [parseInt(value) || 1] followed by
    [handleItemChange], run on the text ["-5"] for the one item of a list:
    the text parses to -5, which is truthy, so the item's quantity becomes
    the negative number -5 and not 1. *)
Theorem C1_negative_quantity_is_stored :
  let item := newItem (Product.mk "P1" "Widget") 1000 in
  let s := fst (setRequestItems (fun _ => [item]) initialState) in
  parseInt "-5" = Int (-5) /\
  map RequestItem.qty (requestItems (fst (qtyOnChange item "-5" s))) = [Int (-5)] /\
  is_negative (coercedQty "-5") = true /\
  coercedQty "-5" <> Int 1.
Proof.
  intros item s. repeat split; try reflexivity. discriminate.
Qed.

(* ------------------------------------------------------------------ *)
(** ** Submission *)

Section Submission.

Lemma submitGuard_passes : forall s,
  selectedStore s <> "" -> requestItems s <> [] -> submitGuard s = None.
Proof.
  intros s Hs Hi. unfold submitGuard.
  destruct (String.eqb_spec (selectedStore s) ""); [contradiction|].
  destruct (requestItems s); [contradiction | reflexivity].
Qed.

Lemma submitGuard_None : forall s,
  submitGuard s = None -> selectedStore s <> "" /\ requestItems s <> [].
Proof.
  intros s. unfold submitGuard.
  destruct (String.eqb_spec (selectedStore s) ""); [discriminate|].
  destruct (requestItems s); [discriminate|].
  intros _. split; [assumption | discriminate].
Qed.

End Submission.

(** C2.  With a store selected and a non-empty list, a submission whose
    fetch throws ends with the network-failure error status, the request
    list and the selected store as they were before, and [isSubmitting]
    cleared.  The resumption after the failed fetch does not touch the list
    or the selection of whatever state it resumes in. *)
Theorem C2_submit_transport_error_preserves :
  forall s : State,
    selectedStore s <> "" ->
    requestItems s <> [] ->
    let s' := fst (handleSubmit Rejected s) in
    status s' = submitFailure /\
    type (status s') = error /\
    requestItems s' = requestItems s /\
    List.length (requestItems s') = List.length (requestItems s) /\
    selectedStore s' = selectedStore s /\
    isSubmitting s' = false /\
    (forall s1, requestItems (fst (handleSubmit_settled Rejected s1)) = requestItems s1
                /\ selectedStore (fst (handleSubmit_settled Rejected s1)) = selectedStore s1
                /\ isSubmitting (fst (handleSubmit_settled Rejected s1)) = false).
Proof.
  intros s Hs Hi s'. subst s'. unfold handleSubmit.
  rewrite (submitGuard_passes s Hs Hi). simpl.
  repeat split; reflexivity.
Qed.

Lemma C2_submit_transport_error_witness :
  let item := newItem (Product.mk "P1" "Widget") 1000 in
  let s := fst ((setSelectedStore "[S1] Store One" ;;
                 setRequestItems (fun _ => [item]))%action initialState) in
  requestItems (fst (handleSubmit Rejected s)) = [item] /\
  selectedStore (fst (handleSubmit Rejected s)) = "[S1] Store One" /\
  status (fst (handleSubmit Rejected s)) = submitFailure.
Proof.
  intros item s.
  assert (Hs : selectedStore s <> "") by (vm_compute; discriminate).
  assert (Hi : requestItems s <> []) by (vm_compute; discriminate).
  destruct (C2_submit_transport_error_preserves s Hs Hi)
    as (Hst & _ & Hreq & _ & Hsel & _).
  split; [exact Hreq|]. split; [exact Hsel | exact Hst].
Defined.

(** C3.  With a store selected and a non-empty list, a submission whose
    fetch completes without throwing ends with the success status, an empty
    request list, no selected store and [isSubmitting] cleared, and it has
    set one timer, of 5000 ms, whose callback sets the idle status with the
    empty message. *)
Theorem C3_submit_success_resets :
  forall s : State,
    selectedStore s <> "" ->
    requestItems s <> [] ->
    let '(s', es) := handleSubmit Fulfilled s in
    status s' = submitSuccess /\
    type (status s') = success /\
    requestItems s' = [] /\
    selectedStore s' = "" /\
    isSubmitting s' = false /\
    timeouts es = [(idleStatus, 5000)] /\
    status (fst (setStatus idleStatus s')) = {| type := idle; message := "" |}.
Proof.
  intros s Hs Hi. unfold handleSubmit.
  rewrite (submitGuard_passes s Hs Hi). simpl.
  repeat split; reflexivity.
Qed.

Lemma C3_submit_success_witness :
  let item := newItem (Product.mk "P1" "Widget") 1000 in
  let s := fst ((setSelectedStore "[S1] Store One" ;;
                 setRequestItems (fun _ => [item]))%action initialState) in
  requestItems (fst (handleSubmit Fulfilled s)) = [] /\
  selectedStore (fst (handleSubmit Fulfilled s)) = "" /\
  timeouts (snd (handleSubmit Fulfilled s)) = [(idleStatus, 5000)].
Proof.
  intros item s.
  assert (Hs : selectedStore s <> "") by (vm_compute; discriminate).
  assert (Hi : requestItems s <> []) by (vm_compute; discriminate).
  pose proof (C3_submit_success_resets s Hs Hi) as H.
  destruct (handleSubmit Fulfilled s) as [s' es].
  destruct H as (_ & _ & Hreq & Hsel & _ & Ht & _).
  split; [exact Hreq|]. split; [exact Hsel | exact Ht].
Defined.

(** C4.  [handleSubmit] checks first that a store is selected and then that
    the list is non-empty.  At the first check that fails it sets the error
    status naming that precondition and returns: no effect is requested (so
    no fetch), and the request list, the selected store and [isSubmitting]
    are as before.  With no store and an empty list the store error is the
    one set. *)
Theorem C4_submit_validation_order :
  forall (o : FetchOutcome) (s : State),
    (selectedStore s = "" ->
       let '(s', es) := handleSubmit o s in
       status s' = {| type := error; message := "Pilih store terlebih dahulu!" |} /\
       es = [] /\ fetches es = [] /\
       requestItems s' = requestItems s /\
       selectedStore s' = selectedStore s /\
       isSubmitting s' = isSubmitting s) /\
    (selectedStore s <> "" -> requestItems s = [] ->
       let '(s', es) := handleSubmit o s in
       status s' = {| type := error; message := "Tambahkan minimal satu item!" |} /\
       es = [] /\ fetches es = [] /\
       requestItems s' = requestItems s /\
       selectedStore s' = selectedStore s /\
       isSubmitting s' = isSubmitting s) /\
    (selectedStore s = "" \/ requestItems s = [] ->
       handleSubmit_begin s = handleSubmit o s).
Proof.
  intros o s. unfold handleSubmit, handleSubmit_begin, submitGuard.
  split; [|split].
  - intros H. rewrite H. simpl. repeat split; auto.
  - intros Hs H. destruct (String.eqb_spec (selectedStore s) ""); [contradiction|].
    rewrite H. simpl. repeat split; auto.
  - intros [H|H]; rewrite H; [reflexivity|].
    destruct (String.eqb (selectedStore s) ""); reflexivity.
Qed.

Lemma C4_submit_validation_witness :
  status (fst (handleSubmit Fulfilled initialState)) = noStoreError /\
  snd (handleSubmit Fulfilled initialState) = [] /\
  status (fst (handleSubmit Fulfilled
                 (fst (setSelectedStore "[S1] Store One" initialState))))
  = noItemError.
Proof.
  pose proof (C4_submit_validation_order Fulfilled initialState)
    as (H1 & _ & _).
  specialize (H1 eq_refl).
  pose proof (C4_submit_validation_order Fulfilled
                (fst (setSelectedStore "[S1] Store One" initialState)))
    as (_ & H2 & _).
  assert (Hne : selectedStore (fst (setSelectedStore "[S1] Store One" initialState)) <> "")
    by (vm_compute; discriminate).
  specialize (H2 Hne eq_refl).
  destruct (handleSubmit Fulfilled initialState) as [s1 e1].
  destruct (handleSubmit Fulfilled
              (fst (setSelectedStore "[S1] Store One" initialState))) as [s2 e2].
  destruct H1 as (H1 & He & _). destruct H2 as (H2 & _).
  split; [exact H1|]. split; [exact He | exact H2].
Defined.

(** C8.  When both guards pass, [handleSubmit] calls [fetch] exactly once,
    with method POST in no-cors mode; the payload has the selected store as
    [store] and, for [items], one entry per line item in list order, made
    of the item's code, description, quantity converted to a string, and
    reason. *)
Theorem C8_submit_payload :
  forall (o : FetchOutcome) (s : State),
    selectedStore s <> "" ->
    requestItems s <> [] ->
    exists p : Payload,
      fetches (snd (handleSubmit o s)) =
        [{| url := SCRIPT_URL; method := POST; mode := no_cors; body := Some p |}] /\
      fetches (snd (handleSubmit_begin s)) = fetches (snd (handleSubmit o s)) /\
      pstore p = selectedStore s /\
      List.length (pitems p) = List.length (requestItems s) /\
      (forall i item,
         nth_error (requestItems s) i = Some item ->
         nth_error (pitems p) i =
         Some {| procode := RequestItem.code item;
                 prodesc := RequestItem.desc item;
                 pqty := toString (RequestItem.qty item);
                 preason := RequestItem.reason item |}).
Proof.
  intros o s Hs Hi. exists (submitPayload s).
  unfold handleSubmit, handleSubmit_begin.
  rewrite (submitGuard_passes s Hs Hi).
  split; [destruct o; reflexivity|].
  split; [destruct o; reflexivity|].
  split; [reflexivity|].
  split; [apply length_map|].
  intros i item H. simpl. rewrite nth_error_map, H. reflexivity.
Qed.

Lemma C8_submit_payload_witness :
  let item := withField (newItem (Product.mk "P1" "Widget") 1000) (OfQty (Int 5)) in
  let s := fst ((setSelectedStore "[S1] Store One" ;;
                 setRequestItems (fun _ => [item]))%action initialState) in
  exists p, fetches (snd (handleSubmit Fulfilled s)) = [submitRequest p] /\
            pstore p = "[S1] Store One" /\
            nth_error (pitems p) 0 =
            Some {| procode := "P1"; prodesc := "Widget"; pqty := "5"; preason := "" |}.
Proof.
  intros item s.
  assert (Hs : selectedStore s <> "") by (vm_compute; discriminate).
  assert (Hi : requestItems s <> []) by (vm_compute; discriminate).
  destruct (C8_submit_payload Fulfilled s Hs Hi) as (p & Hf & _ & Hst & _ & Hn).
  exists p. split; [exact Hf|]. split; [exact Hst|].
  exact (Hn 0%nat item eq_refl).
Defined.

(* ------------------------------------------------------------------ *)
(** ** Request list *)

Section RequestList.

Lemma alreadyListed_In : forall p s,
  alreadyListed p s = true <-> In (Product.code p) (codes (requestItems s)).
Proof.
  intros p s. unfold alreadyListed, codes. rewrite existsb_exists, in_map_iff.
  split; intros [item [H1 H2]]; exists item.
  - apply String.eqb_eq in H2. auto.
  - split; [assumption | now apply String.eqb_eq].
Qed.

Lemma withCode_absent : forall c l, ~ In c (codes l) -> withCode c l = [].
Proof.
  intros c. induction l as [|x l IH]; simpl; intros H; [reflexivity|].
  destruct (String.eqb_spec (RequestItem.code x) c) as [E|E].
  - exfalso. apply H. now left.
  - apply IH. intros Hin. apply H. now right.
Qed.

Lemma withCode_present : forall c l,
  NoDup (codes l) -> In c (codes l) -> List.length (withCode c l) = 1%nat.
Proof.
  intros c. induction l as [|x l IH]; simpl; intros Hnd Hin; [contradiction|].
  inversion Hnd as [|? ? Hx Hl]; subst.
  destruct (String.eqb_spec (RequestItem.code x) c) as [E|E].
  - simpl. rewrite withCode_absent; [reflexivity | now rewrite <- E].
  - destruct Hin as [Hin|Hin]; [contradiction | now apply IH].
Qed.

Lemma codes_app : forall l1 l2, codes (l1 ++ l2) = (codes l1 ++ codes l2)%list.
Proof. intros. apply map_app. Qed.

Lemma NoDup_snoc : forall (c : string) l,
  NoDup l -> ~ In c l -> NoDup (l ++ [c]).
Proof.
  intros c. induction l as [|x l IH]; simpl; intros Hnd Hc.
  - constructor; [intros [] | constructor].
  - inversion Hnd; subst. constructor.
    + rewrite in_app_iff. simpl. intros [H|[H|[]]]; [contradiction|].
      apply Hc. now left.
    + apply IH; [assumption|]. intros H. apply Hc. now right.
Qed.

(** No two line items for one product: kept by [handleAddItem]. *)
Lemma handleAddItem_codes_NoDup : forall p now s,
  NoDup (codes (requestItems s)) ->
  NoDup (codes (requestItems (fst (handleAddItem p now s)))).
Proof.
  intros p now s Hnd. unfold handleAddItem.
  destruct (alreadyListed p s) eqn:Hl; simpl; [assumption|].
  rewrite codes_app. apply NoDup_snoc; [assumption|].
  intros Hin. apply alreadyListed_In in Hin. congruence.
Qed.

Lemma handleAddItem_lists : forall p now s,
  In (Product.code p) (codes (requestItems (fst (handleAddItem p now s)))).
Proof.
  intros p now s. unfold handleAddItem.
  destruct (alreadyListed p s) eqn:Hl; simpl.
  - now apply alreadyListed_In.
  - rewrite codes_app, in_app_iff. right. now left.
Qed.

End RequestList.

(** C9.  Adding twice products with the same code: the second call leaves
    the request list as the first call left it, sets the informational
    status and a 3000 ms timer that clears it, and the list holds exactly
    one line item with that code (from a list in which no two items share a
    code, as every list built by these operations is). *)
Theorem C9_add_twice_same_code :
  forall (s : State) (p1 p2 : Product.t) (t1 t2 : Z),
    Product.code p1 = Product.code p2 ->
    NoDup (codes (requestItems s)) ->
    let s1 := fst (handleAddItem p1 t1 s) in
    let '(s2, es2) := handleAddItem p2 t2 s1 in
    requestItems s2 = requestItems s1 /\
    List.length (withCode (Product.code p1) (requestItems s2)) = 1%nat /\
    (requestItems s = [] -> List.length (requestItems s2) = 1%nat) /\
    s2 = fst (setStatus duplicateNotice s1) /\
    type (status s2) = info /\
    timeouts es2 = [(idleStatus, 3000)].
Proof.
  intros s p1 p2 t1 t2 Hc Hnd s1.
  assert (Hin : In (Product.code p2) (codes (requestItems s1)))
    by (rewrite <- Hc; apply handleAddItem_lists).
  assert (Hnd1 : NoDup (codes (requestItems s1)))
    by (apply handleAddItem_codes_NoDup; assumption).
  assert (Hlen : requestItems s = [] -> List.length (requestItems s1) = 1%nat).
  { intros He. subst s1. unfold handleAddItem, alreadyListed.
    rewrite He. simpl. rewrite He. reflexivity. }
  unfold handleAddItem at 1.
  apply alreadyListed_In in Hin. rewrite Hin. simpl.
  split; [reflexivity|].
  split; [apply withCode_present; [assumption | rewrite Hc; now apply alreadyListed_In]|].
  split; [assumption|].
  repeat split; reflexivity.
Qed.

Lemma C9_add_twice_witness :
  let p := Product.mk "P1" "Widget" in
  let s1 := fst (handleAddItem p 1000 initialState) in
  requestItems (fst (handleAddItem p 2000 s1)) = [newItem p 1000] /\
  List.length (requestItems (fst (handleAddItem p 2000 s1))) = 1%nat.
Proof.
  intros p s1.
  pose proof (C9_add_twice_same_code initialState p p 1000 2000 eq_refl
                (NoDup_nil string)) as H.
  cbv zeta in H. fold s1 in H.
  destruct (handleAddItem p 2000 s1) as [s2 es2].
  destruct H as (Hreq & _ & Hlen & _).
  cbn [fst].
  split; [rewrite Hreq; reflexivity | exact (Hlen eq_refl)].
Defined.

(** C10.  An add rejected as a duplicate leaves the search query and the
    displayed result list as they were, also after the following render;
    an accepted add clears both. *)
Theorem C10_rejected_add_keeps_search :
  forall (p : Product.t) (now : Z) (s : State),
    let s' := fst (handleAddItem p now s) in
    (alreadyListed p s = true ->
       searchTerm s' = searchTerm s /\
       filteredProducts s' = filteredProducts s /\
       rerender false s s' = s') /\
    (alreadyListed p s = false ->
       searchTerm s' = "" /\
       filteredProducts s' = [] /\
       searchTerm (rerender false s s') = "" /\
       filteredProducts (rerender false s s') = []).
Proof.
  intros p now s s'. subst s'. unfold handleAddItem, rerender.
  split; intros ->; simpl.
  - rewrite String.eqb_refl. repeat split; reflexivity.
  - destruct (String.eqb (searchTerm s) ""); repeat split; reflexivity.
Qed.

Lemma C10_rejected_add_witness :
  let p := Product.mk "P1" "Widget" in
  let s := fst ((setProducts [p] ;; setSearchTerm "wid" ;; searchEffect ;;
                 setRequestItems (fun _ => [newItem p 1000]))%action initialState) in
  alreadyListed p s = true /\
  searchTerm (fst (handleAddItem p 2000 s)) = "wid" /\
  filteredProducts (fst (handleAddItem p 2000 s)) = [p].
Proof.
  intros p s.
  assert (Hl : alreadyListed p s = true) by reflexivity.
  destruct (proj1 (C10_rejected_add_keeps_search p 2000 s) Hl) as (Hq & Hf & _).
  split; [exact Hl|]. split; [rewrite Hq | rewrite Hf]; reflexivity.
Defined.

(* ------------------------------------------------------------------ *)
(** ** Sessions *)

Section Sessions.

Lemma absorb_ui : forall es w, ui (fold_left absorb es w) = ui w.
Proof.
  induction es as [|e es IH]; intros w; simpl; [reflexivity|].
  rewrite IH. destruct e; reflexivity.
Qed.

Lemma rerender_frame : forall b prev next,
  requestItems (rerender b prev next) = requestItems next /\
  isSubmitting (rerender b prev next) = isSubmitting next /\
  isLoading (rerender b prev next) = isLoading next /\
  selectedStore (rerender b prev next) = selectedStore next /\
  status (rerender b prev next) = status next /\
  searchTerm (rerender b prev next) = searchTerm next.
Proof.
  intros b prev next. unfold rerender.
  destruct (b || negb (searchTerm prev =? searchTerm next)%string);
    repeat split; reflexivity.
Qed.

Lemma codes_change : forall id fv l,
  codes (map (fun item => if String.eqb (RequestItem.id item) id
                          then withField item fv else item) l) = codes l.
Proof.
  intros id fv. induction l as [|x l IH]; simpl; [reflexivity|].
  rewrite IH. destruct (String.eqb (RequestItem.id x) id); [|reflexivity].
  destruct fv; reflexivity.
Qed.

Lemma codes_filter_NoDup : forall f l,
  NoDup (codes l) -> NoDup (codes (filter f l)).
Proof.
  intros f. induction l as [|x l IH]; simpl; intros H; [assumption|].
  inversion H as [|? ? Hx Hl]; subst.
  destruct (f x); simpl; [|auto].
  constructor; [|auto].
  intros Hin. apply Hx. unfold codes in *. rewrite in_map_iff in *.
  destruct Hin as [y [Hy Hin]]. apply filter_In in Hin. exists y. tauto.
Qed.

Lemma Inv_mount : Inv mount.
Proof. split; simpl; [reflexivity | constructor]. Qed.

Lemma absorb_inflight_quiet : forall es w,
  fetches es = [] -> inflight (fold_left absorb es w) = inflight w.
Proof.
  induction es as [|e es IH]; intros w H; simpl; [reflexivity|].
  destruct e; simpl in H; try discriminate; rewrite IH; auto.
Qed.

Lemma dispatch_quiet : forall b h w,
  quiet h ->
  inflight (dispatch b h w) = inflight w /\
  isSubmitting (ui (dispatch b h w)) = isSubmitting (ui w) /\
  requestItems (ui (dispatch b h w)) = requestItems (fst (h (ui w))).
Proof.
  intros b h w Hq. unfold dispatch. destruct (Hq (ui w)) as [Hs Hf].
  destruct (h (ui w)) as [s' es]. simpl in *.
  rewrite absorb_ui, absorb_inflight_quiet by assumption. simpl.
  destruct (rerender_frame b (ui w) s') as (-> & -> & _). auto.
Qed.

Lemma absorb_inflight : forall es w,
  inflight (fold_left absorb es w) = (inflight w + posts es)%nat.
Proof.
  induction es as [|e es IH]; intros w; simpl.
  - unfold posts. simpl. lia.
  - rewrite IH. unfold posts. destruct e as [st d|r|l]; simpl; try reflexivity.
    destruct (method r); simpl; lia.
Qed.

Lemma dispatch_frame : forall b h w,
  inflight (dispatch b h w) = (inflight w + posts (snd (h (ui w))))%nat /\
  isSubmitting (ui (dispatch b h w)) = isSubmitting (fst (h (ui w))) /\
  requestItems (ui (dispatch b h w)) = requestItems (fst (h (ui w))).
Proof.
  intros b h w. unfold dispatch.
  destruct (h (ui w)) as [s' es]. simpl.
  rewrite absorb_ui, absorb_inflight. simpl.
  destruct (rerender_frame b (ui w) s') as (-> & -> & _). auto.
Qed.

Lemma handleSubmit_begin_posts : forall s,
  isSubmitting s = false ->
  posts (snd (handleSubmit_begin s)) =
    (if isSubmitting (fst (handleSubmit_begin s)) then 1%nat else 0%nat) /\
  requestItems (fst (handleSubmit_begin s)) = requestItems s.
Proof.
  intros s Hs. unfold handleSubmit_begin.
  destruct (submitGuard s); simpl; [rewrite Hs|]; split; reflexivity.
Qed.

Lemma quiet_setters :
  (forall v, quiet (setSelectedStore v)) /\
  (forall v, quiet (setSearchTerm v)) /\
  (forall v, quiet (setStatus v)) /\
  quiet handleClickOutside /\
  (forall p now, quiet (handleAddItem p now)) /\
  (forall id fv, quiet (handleItemChange id fv)) /\
  (forall id, quiet (handleDeleteItem id)) /\
  (forall o, quiet (fetchMasterData_settled o)).
Proof.
  repeat split; try reflexivity.
  - unfold handleAddItem. destruct (alreadyListed p s); reflexivity.
  - unfold handleAddItem. destruct (alreadyListed p s); reflexivity.
  - destruct o; reflexivity.
  - destruct o; reflexivity.
Qed.

(** The case of an event whose handler is [quiet] and keeps the list. *)
Ltac by_quiet w Q :=
  let H1 := fresh "H" in
  let H2 := fresh "H" in
  let H3 := fresh "H" in
  destruct (dispatch_quiet false _ w Q) as (H1 & H2 & H3);
  split; [now rewrite H1, H2 | now rewrite H3].

Lemma step_Inv : forall w ev w', step w ev = Some w' -> Inv w -> Inv w'.
Proof.
  intros w ev w' Hstep [Hfl Hnd].
  destruct quiet_setters as (Q1 & Q2 & Q3 & Q4 & Q5 & Q6 & Q7 & Q8).
  destruct ev; unfold step in Hstep.
  - (* MasterSettled *)
    destruct (masterPending w); [|discriminate]. injection Hstep as <-.
    destruct (dispatch_quiet
                (match o with MasterOk _ => true | _ => false end)
                _ w (Q8 o)) as (H1 & H2 & H3).
    split; simpl; [now rewrite H1, H2|].
    rewrite H3. destruct o; exact Hnd.
  - (* SelectStore *)
    destruct (negb (isLoading (ui w)) && _); [|discriminate].
    injection Hstep as <-.
    by_quiet w (Q1 value).
  - (* SearchInput *)
    destruct (searchDisabled (ui w)); [discriminate|]. injection Hstep as <-.
    by_quiet w (Q2 value).
  - (* ClickOutside *)
    injection Hstep as <-.
    by_quiet w Q4.
  - (* ClickProduct *)
    destruct (nth_error (filteredProducts (ui w)) k) as [p|]; [|discriminate].
    injection Hstep as <-.
    destruct (dispatch_quiet false _ w (Q5 p now)) as (H1 & H2 & H3).
    split; simpl; [now rewrite H1, H2|].
    rewrite H3. now apply handleAddItem_codes_NoDup.
  - (* QtyInput *)
    destruct (nth_error (requestItems (ui w)) row) as [item|]; [|discriminate].
    injection Hstep as <-. unfold qtyOnChange.
    destruct (dispatch_quiet false _ w (Q6 (RequestItem.id item)
                (OfQty (coercedQty value)))) as (H1 & H2 & H3).
    split; [now rewrite H1, H2|].
    rewrite H3. unfold handleItemChange, setRequestItems.
    cbn [fst requestItems]. now rewrite codes_change.
  - (* ReasonInput *)
    destruct (nth_error (requestItems (ui w)) row) as [item|]; [|discriminate].
    injection Hstep as <-. unfold reasonOnChange.
    destruct (dispatch_quiet false _ w (Q6 (RequestItem.id item)
                (OfReason value))) as (H1 & H2 & H3).
    split; [now rewrite H1, H2|].
    rewrite H3. unfold handleItemChange, setRequestItems.
    cbn [fst requestItems]. now rewrite codes_change.
  - (* ClickDelete *)
    destruct (nth_error (requestItems (ui w)) row) as [item|]; [|discriminate].
    injection Hstep as <-.
    destruct (dispatch_quiet false _ w (Q7 (RequestItem.id item)))
      as (H1 & H2 & H3).
    split; [now rewrite H1, H2|].
    rewrite H3. unfold handleDeleteItem, setRequestItems.
    cbn [fst requestItems]. now apply codes_filter_NoDup.
  - (* ClickSubmit *)
    unfold submitDisabled in Hstep.
    destruct (isSubmitting (ui w)) eqn:Hsub; [discriminate|].
    destruct (isLoading (ui w)); [discriminate|]. injection Hstep as <-.
    destruct (dispatch_frame false handleSubmit_begin w) as (H1 & H2 & H3).
    destruct (handleSubmit_begin_posts (ui w) Hsub) as (P1 & P2).
    split; [rewrite H1, H2, Hfl, P1; reflexivity | now rewrite H3, P2].
  - (* SubmitSettled *)
    destruct (inflight w) as [|n] eqn:Hn; [discriminate|].
    injection Hstep as <-.
    destruct (isSubmitting (ui w)); [|discriminate]. injection Hfl as ->.
    destruct (dispatch_frame false (handleSubmit_settled o) w) as (_ & H2 & H3).
    split; simpl.
    + rewrite H2. destruct o; reflexivity.
    + rewrite H3. destruct o; simpl; [constructor | assumption].
  - (* TimerFires *)
    destruct (nth_error (timers w) k) as [[st d]|]; [|discriminate].
    injection Hstep as <-.
    destruct (dispatch_quiet false _ w (Q3 st)) as (H1 & H2 & H3).
    unfold dispatch in H2, H3. simpl in H2, H3.
    split; cbn [inflight ui]; [now rewrite H2 | now rewrite H3].
Qed.

Lemma run_Inv : forall evs w w', run w evs = Some w' -> Inv w -> Inv w'.
Proof.
  induction evs as [|ev evs IH]; simpl; intros w w' H Hinv.
  - injection H as <-. assumption.
  - destruct (step w ev) as [w1|] eqn:Hs; [|discriminate].
    eapply IH; [eassumption|]. eapply step_Inv; eassumption.
Qed.

Lemma reachable_Inv : forall w, reachable w -> Inv w.
Proof. intros w [evs H]. eapply run_Inv; [eassumption | apply Inv_mount]. Qed.

(** In every state of a session no two line items are for one product. *)
Corollary reachable_codes_NoDup : forall w,
  reachable w -> NoDup (codes (requestItems (ui w))).
Proof. intros w H. apply reachable_Inv in H. now destruct H. Qed.

End Sessions.

(** The submit handler itself does not read [isSubmitting]: the guard
    against a second submission is the [disabled] attribute of the button,
    which [step] models. *)
Lemma handleSubmit_begin_ignores_isSubmitting : forall s,
  snd (handleSubmit_begin (fst (setIsSubmitting true s))) = snd (handleSubmit_begin s).
Proof.
  intros s. unfold handleSubmit_begin, submitGuard, submitSend, submitPayload.
  simpl.
  destruct (String.eqb (selectedStore s) ""); [reflexivity|].
  destruct (requestItems s); reflexivity.
Qed.

(** C6.  In every state of a session at most one submission fetch is in
    flight; one is in flight exactly while [isSubmitting] is set, and in
    such a state the page cannot start [handleSubmit] again: the click on
    the disabled submit button is not an event of the page. *)
Theorem C6_single_submission_in_flight :
  forall w : World,
    reachable w ->
    (inflight w <= 1)%nat /\
    (isSubmitting (ui w) = true <-> inflight w = 1%nat) /\
    (isSubmitting (ui w) = true -> step w ClickSubmit = None) /\
    (forall w', step w ClickSubmit = Some w' -> inflight w = 0%nat).
Proof.
  intros w Hr. destruct (reachable_Inv w Hr) as [Hfl _].
  split; [|split; [|split]].
  - rewrite Hfl. destruct (isSubmitting (ui w)); lia.
  - rewrite Hfl. destruct (isSubmitting (ui w)); split; congruence.
  - intros H. simpl. unfold submitDisabled. now rewrite H.
  - intros w'. simpl. unfold submitDisabled. rewrite Hfl.
    destruct (isSubmitting (ui w)); [discriminate | reflexivity].
Qed.

Lemma C6_single_submission_witness :
  exists w, run mount demoSubmitting = Some w /\
            isSubmitting (ui w) = true /\
            inflight w = 1%nat /\
            step w ClickSubmit = None.
Proof.
  destruct (run mount demoSubmitting) as [w|] eqn:Hrun;
    [|vm_compute in Hrun; discriminate].
  exists w. split; [reflexivity|].
  assert (Hr : reachable w) by (exists demoSubmitting; exact Hrun).
  destruct (C6_single_submission_in_flight w Hr) as (_ & Hiff & Hdis & _).
  assert (Hs : isSubmitting (ui w) = true)
    by (vm_compute in Hrun; injection Hrun as <-; reflexivity).
  split; [exact Hs|]. split; [apply Hiff; exact Hs | apply Hdis; exact Hs].
Defined.

(* ------------------------------------------------------------------ *)
(** ** Identifiers of line items *)

Section Identifiers.

Lemma toString_Int_inj : forall a b, toString (Int a) = toString (Int b) -> a = b.
Proof.
  intros a b H. simpl in H. apply DecimalZ.to_int_inj.
  assert (Hn : forall z, Z.to_int z <> Decimal.Pos Decimal.Nil /\
                         Z.to_int z <> Decimal.Neg Decimal.Nil).
  { intros [|q|q]; simpl; split; try discriminate;
      intros E; injection E as E; now apply Unsigned.to_uint_nonnil in E. }
  destruct (Hn a) as [Ha1 Ha2]. destruct (Hn b) as [Hb1 Hb2].
  pose proof (NilZero.isi _ Ha1 Ha2) as Ia.
  pose proof (NilZero.isi _ Hb1 Hb2) as Ib.
  rewrite H in Ia. rewrite Ia in Ib. now injection Ib.
Qed.

Lemma append_cancel_l : forall a b c : string, a ++ b = a ++ c -> b = c.
Proof.
  induction a as [|x a IH]; simpl; intros b c H; [assumption|].
  injection H as H. auto.
Qed.

(** For one product, the identifier tells the clock readings apart: two
    identifiers for the same code coincide only when [Date.now()] returned
    the same number. *)
Lemma freshId_same_code : forall p1 p2 t1 t2,
  Product.code p1 = Product.code p2 ->
  (freshId p1 t1 = freshId p2 t2 <-> t1 = t2).
Proof.
  intros p1 p2 t1 t2 Hc. unfold freshId. rewrite Hc. split.
  - intros H. apply append_cancel_l in H. apply append_cancel_l in H.
    now apply toString_Int_inj.
  - now intros ->.
Qed.

End Identifiers.

(** C7.  A session in which a product is added, removed and added again
    while [Date.now()] returns 1000 both times: the two identifiers made at
    add-time are the same string, so the identifiers of the session are not
    pairwise distinct. *)
Theorem C7_same_clock_reading_repeats_id :
  exists w,
    run mount [MasterSettled (MasterOk demoCatalog);
               SearchInput "wid"; ClickProduct 0 1000;
               ClickDelete 0;
               SearchInput "wid"; ClickProduct 0 1000] = Some w /\
    issued w = ["P1-1000"; "P1-1000"] /\
    map RequestItem.id (requestItems (ui w)) = ["P1-1000"] /\
    ~ NoDup (issued w).
Proof.
  eexists. split; [vm_compute; reflexivity|].
  split; [reflexivity|]. split; [reflexivity|].
  intros H. inversion H as [|x l Hin Hl]; subst. apply Hin. now left.
Qed.

(* ------------------------------------------------------------------ *)
(** * Further properties of the handlers *)

(** ** Editing and removing line items *)

Section Editing.

Lemma state_eta : forall s : State,
  {| stores := stores s; products := products s;
     requestItems := requestItems s; selectedStore := selectedStore s;
     searchTerm := searchTerm s; filteredProducts := filteredProducts s;
     status := status s; isLoading := isLoading s;
     isSubmitting := isSubmitting s |} = s.
Proof. intros []; reflexivity. Qed.

Lemma setRequestItems_same : forall f s,
  f (requestItems s) = requestItems s -> setRequestItems f s = (s, []).
Proof.
  intros f s H. unfold setRequestItems. rewrite H, state_eta. reflexivity.
Qed.

Lemma change_absent : forall id fv l,
  ~ In id (ids l) ->
  map (fun item => if String.eqb (RequestItem.id item) id
                   then withField item fv else item) l = l.
Proof.
  intros id fv. induction l as [|x l IH]; simpl; intros H; [reflexivity|].
  destruct (String.eqb_spec (RequestItem.id x) id) as [E|E].
  - exfalso. apply H. now left.
  - f_equal. apply IH. intros Hin. apply H. now right.
Qed.

Lemma withField_frame : forall item fv,
  RequestItem.id (withField item fv) = RequestItem.id item /\
  RequestItem.code (withField item fv) = RequestItem.code item /\
  RequestItem.desc (withField item fv) = RequestItem.desc item.
Proof. intros item []; repeat split; reflexivity. Qed.

Lemma Subseq_refl : forall {A : Type} (l : list A), Subseq l l.
Proof. induction l; constructor; assumption. Qed.

Lemma Subseq_filter : forall {A : Type} (f : A -> bool) l, Subseq (filter f l) l.
Proof.
  intros A f. induction l as [|x l IH]; simpl; [constructor|].
  destruct (f x); constructor; assumption.
Qed.

Lemma Subseq_length : forall {A : Type} (r l : list A),
  Subseq r l -> (List.length r <= List.length l)%nat.
Proof. induction 1; simpl; lia. Qed.

Lemma Subseq_In : forall {A : Type} (r l : list A) x,
  Subseq r l -> In x r -> In x l.
Proof.
  induction 1; simpl; intros Hin; [assumption| |right; auto].
  destruct Hin; [now left | right; auto].
Qed.

Lemma filter_keep_all : forall {A : Type} (f : A -> bool) l,
  (forall x, In x l -> f x = true) -> filter f l = l.
Proof.
  intros A f. induction l as [|x l IH]; simpl; intros H; [reflexivity|].
  rewrite (H x) by now left. f_equal. apply IH. intros y Hy. apply H. now right.
Qed.

End Editing.

(** X1.  [handleItemChange] with an identifier that no line item carries is
    a no-op: the whole state is returned as it was and nothing is
    requested. *)
Theorem handleItemChange_unknown_id :
  forall (id : string) (fv : FieldValue) (s : State),
    ~ In id (ids (requestItems s)) ->
    handleItemChange id fv s = (s, []).
Proof.
  intros id fv s H. unfold handleItemChange.
  apply setRequestItems_same. now apply change_absent.
Qed.

Lemma handleItemChange_unknown_id_witness :
  let s := fst (handleAddItem (Product.mk "P1" "Widget") 1000 initialState) in
  handleItemChange "P1-999" (OfQty (Int 7)) s = (s, []).
Proof.
  intros s. apply handleItemChange_unknown_id.
  vm_compute. intros [H|[]]. discriminate H.
Defined.

(** X2.  [handleItemChange] keeps the number and order of the line items
    and their identifiers, codes and descriptions; rows with another
    identifier are untouched; a quantity change leaves every reason as it
    was and a reason change leaves every quantity as it was; the cells of
    the state other than the request list do not change. *)
Theorem handleItemChange_frame :
  forall (id : string) (fv : FieldValue) (s : State),
    let s' := fst (handleItemChange id fv s) in
    List.length (requestItems s') = List.length (requestItems s) /\
    ids (requestItems s') = ids (requestItems s) /\
    codes (requestItems s') = codes (requestItems s) /\
    map RequestItem.desc (requestItems s') = map RequestItem.desc (requestItems s) /\
    (forall row item,
       nth_error (requestItems s) row = Some item ->
       RequestItem.id item <> id ->
       nth_error (requestItems s') row = Some item) /\
    (forall v, fv = OfQty v ->
       map RequestItem.reason (requestItems s') = map RequestItem.reason (requestItems s)) /\
    (forall v, fv = OfReason v ->
       map RequestItem.qty (requestItems s') = map RequestItem.qty (requestItems s)) /\
    fst (setRequestItems (fun _ => requestItems s) s') = s /\
    snd (handleItemChange id fv s) = [].
Proof.
  intros id fv s s'. subst s'. simpl.
  split; [apply length_map|].
  split; [|split; [apply codes_change|split; [|split; [|split; [|split]]]]].
  - unfold ids. rewrite map_map. apply map_ext. intros a.
    destruct (String.eqb (RequestItem.id a) id); [|reflexivity].
    apply withField_frame.
  - rewrite map_map. apply map_ext. intros a.
    destruct (String.eqb (RequestItem.id a) id); [|reflexivity].
    apply withField_frame.
  - intros row item Hn Hid. rewrite nth_error_map, Hn. simpl.
    destruct (String.eqb_spec (RequestItem.id item) id); [contradiction | reflexivity].
  - intros v ->. rewrite map_map. apply map_ext. intros a.
    destruct (String.eqb (RequestItem.id a) id); reflexivity.
  - intros v ->. rewrite map_map. apply map_ext. intros a.
    destruct (String.eqb (RequestItem.id a) id); reflexivity.
  - split; [apply state_eta | reflexivity].
Qed.

Lemma handleItemChange_frame_witness :
  let s := fst ((handleAddItem (Product.mk "P1" "Widget") 1000 ;;
                 handleAddItem (Product.mk "P2" "Gadget") 1001)%action initialState) in
  nth_error (requestItems (fst (handleItemChange "P1-1000" (OfQty (Int 5)) s))) 1
  = Some (newItem (Product.mk "P2" "Gadget") 1001) /\
  map RequestItem.reason
      (requestItems (fst (handleItemChange "P1-1000" (OfQty (Int 5)) s))) = [""; ""].
Proof.
  intros s.
  destruct (handleItemChange_frame "P1-1000" (OfQty (Int 5)) s)
    as (_ & _ & _ & _ & Hrow & Hreason & _).
  split.
  - apply (Hrow 1%nat (newItem (Product.mk "P2" "Gadget") 1001)).
    + reflexivity.
    + vm_compute. discriminate.
  - rewrite (Hreason (Int 5) eq_refl). reflexivity.
Defined.

(** X3.  Changes of different fields commute, whatever rows they address,
    and of two changes of the same field for the same identifier the later
    one wins. *)
Theorem handleItemChange_compose :
  forall (id1 id2 : string) (q q' : number) (r r' : string) (s : State),
    (handleItemChange id1 (OfQty q) ;; handleItemChange id2 (OfReason r))%action s =
    (handleItemChange id2 (OfReason r) ;; handleItemChange id1 (OfQty q))%action s /\
    (handleItemChange id1 (OfQty q) ;; handleItemChange id1 (OfQty q'))%action s =
    handleItemChange id1 (OfQty q') s /\
    (handleItemChange id1 (OfReason r) ;; handleItemChange id1 (OfReason r'))%action s =
    handleItemChange id1 (OfReason r') s.
Proof.
  intros id1 id2 q q' r r' s.
  unfold andThen, handleItemChange, setRequestItems. simpl.
  split; [|split]; do 2 f_equal; rewrite !map_map; apply map_ext; intros x;
    destruct (String.eqb (RequestItem.id x) id1) eqn:E1;
    destruct (String.eqb (RequestItem.id x) id2) eqn:E2;
    simpl; rewrite ?E1, ?E2; reflexivity.
Qed.

Section Removing.

Lemma delete_result : forall id s,
  requestItems (fst (handleDeleteItem id s)) =
  filter (fun item => negb (String.eqb (RequestItem.id item) id)) (requestItems s).
Proof. reflexivity. Qed.

Lemma filter_other_ids : forall id l,
  NoDup (ids l) ->
  forall row item,
    nth_error l row = Some item -> RequestItem.id item = id ->
    filter (fun it => negb (String.eqb (RequestItem.id it) id)) l = removeNth row l.
Proof.
  intros id. induction l as [|x l IH]; intros Hnd row item Hn Hid.
  - destruct row; discriminate.
  - inversion Hnd as [|? ? Hx Hl]; subst. destruct row as [|row]; simpl in Hn.
    + injection Hn as ->. simpl. rewrite String.eqb_refl. simpl.
      unfold removeNth. simpl. apply filter_keep_all.
      intros y Hy. destruct (String.eqb_spec (RequestItem.id y) (RequestItem.id item)) as [E|E];
        [|reflexivity].
      exfalso. apply Hx. rewrite <- E. now apply in_map.
    + simpl. destruct (String.eqb_spec (RequestItem.id x) (RequestItem.id item)) as [E|E].
      * exfalso. apply Hx. rewrite E. apply in_map. eapply nth_error_In; eassumption.
      * simpl. unfold removeNth. simpl. f_equal.
        apply (IH Hl row item Hn eq_refl).
Qed.

Lemma removeNth_length : forall {A : Type} (l : list A) row x,
  nth_error l row = Some x ->
  S (List.length (removeNth row l)) = List.length l.
Proof.
  intros A. induction l as [|y l IH]; intros [|row] x H; simpl in *;
    try discriminate; unfold removeNth; simpl.
  - reflexivity.
  - f_equal. apply (IH row x H).
Qed.

End Removing.

(** X4.  [handleDeleteItem] leaves no line item with the identifier; the
    items it keeps are exactly those with another identifier, in their
    order; deleting again is a no-op, and so is deleting an identifier that
    no item carries. *)
Theorem handleDeleteItem_removes :
  forall (id : string) (s : State),
    let s' := fst (handleDeleteItem id s) in
    ~ In id (ids (requestItems s')) /\
    Subseq (requestItems s') (requestItems s) /\
    (forall item, In item (requestItems s') <->
                  In item (requestItems s) /\ RequestItem.id item <> id) /\
    handleDeleteItem id s' = (s', []) /\
    (~ In id (ids (requestItems s)) -> handleDeleteItem id s = (s, [])).
Proof.
  intros id s s'.
  assert (Hmem : forall item, In item (requestItems s') <->
                  In item (requestItems s) /\ RequestItem.id item <> id).
  { intros item. subst s'. rewrite delete_result, filter_In, negb_true_iff.
    split; intros [H1 H2]; split; try assumption.
    - intros E. apply String.eqb_eq in E. congruence.
    - now apply String.eqb_neq. }
  assert (Hgone : ~ In id (ids (requestItems s'))).
  { unfold ids. rewrite in_map_iff. intros [item [E Hin]].
    apply Hmem in Hin. tauto. }
  assert (Hnoop : forall t, ~ In id (ids (requestItems t)) ->
                            handleDeleteItem id t = (t, [])).
  { intros t H. unfold handleDeleteItem. apply setRequestItems_same.
    apply filter_keep_all. intros x Hx. apply negb_true_iff, String.eqb_neq.
    intros E. apply H. rewrite <- E. now apply in_map. }
  split; [exact Hgone|].
  split; [subst s'; rewrite delete_result; apply Subseq_filter|].
  split; [exact Hmem|].
  split; [apply Hnoop; exact Hgone | apply Hnoop].
Qed.

Lemma handleDeleteItem_removes_witness :
  let s := fst (handleAddItem (Product.mk "P1" "Widget") 1000 initialState) in
  handleDeleteItem "P2-1000" s = (s, []).
Proof.
  intros s.
  apply (proj2 (proj2 (proj2 (proj2 (handleDeleteItem_removes "P2-1000" s))))).
  vm_compute. intros [H|[]]. discriminate H.
Defined.

(** X5.  When the identifiers of the list are pairwise distinct, the delete
    button of a row removes that row and no other: the list loses exactly
    one item and the other rows keep their order. *)
Theorem handleDeleteItem_one_row :
  forall (s : State) (row : nat) (item : RequestItem.t),
    NoDup (ids (requestItems s)) ->
    nth_error (requestItems s) row = Some item ->
    let s' := fst (handleDeleteItem (RequestItem.id item) s) in
    requestItems s' = removeNth row (requestItems s) /\
    S (List.length (requestItems s')) = List.length (requestItems s).
Proof.
  intros s row item Hnd Hn s'. subst s'. rewrite delete_result.
  rewrite (filter_other_ids _ _ Hnd row item Hn eq_refl).
  split; [reflexivity | eapply removeNth_length; eassumption].
Qed.

Lemma handleDeleteItem_one_row_witness :
  let s := fst ((handleAddItem (Product.mk "P1" "Widget") 1000 ;;
                 handleAddItem (Product.mk "P2" "Gadget") 1001)%action initialState) in
  map RequestItem.code
      (requestItems (fst (handleDeleteItem "P1-1000" s))) = ["P2"].
Proof.
  intros s.
  assert (Hnd : NoDup (ids (requestItems s))).
  { vm_compute. repeat constructor; simpl; intros H;
      repeat (destruct H as [H|H]; try discriminate H); assumption. }
  destruct (handleDeleteItem_one_row s 0 (newItem (Product.mk "P1" "Widget") 1000)
              Hnd eq_refl) as [H _].
  change (RequestItem.id (newItem (Product.mk "P1" "Widget") 1000))
    with "P1-1000" in H.
  rewrite H. reflexivity.
Defined.

(** X6.  Adding a product and then deleting the new row gives back the
    request list as it was, provided the product was not listed and the new
    identifier was not already carried by an item. *)
Theorem add_then_delete :
  forall (p : Product.t) (now : Z) (s : State),
    alreadyListed p s = false ->
    ~ In (freshId p now) (ids (requestItems s)) ->
    requestItems (fst ((handleAddItem p now ;;
                        handleDeleteItem (freshId p now))%action s))
    = requestItems s.
Proof.
  intros p now s Hl Hid. unfold andThen at 1, handleAddItem. rewrite Hl.
  unfold andThen, handleDeleteItem, setRequestItems, setSearchTerm,
    setFilteredProducts.
  cbn [fst snd requestItems]. rewrite filter_app.
  cbn [filter newItem RequestItem.id]. rewrite String.eqb_refl.
  cbn [negb]. rewrite app_nil_r. apply filter_keep_all.
  intros x Hx. apply negb_true_iff, String.eqb_neq.
  intros E. apply Hid. rewrite <- E. now apply in_map.
Qed.

Lemma add_then_delete_witness :
  let s := fst (handleAddItem (Product.mk "P1" "Widget") 1000 initialState) in
  requestItems (fst ((handleAddItem (Product.mk "P2" "Gadget") 1001 ;;
                      handleDeleteItem "P2-1001")%action s))
  = requestItems s.
Proof.
  intros s.
  apply (add_then_delete (Product.mk "P2" "Gadget") 1001 s).
  - reflexivity.
  - vm_compute. intros [H|[]]. discriminate H.
Defined.

(* ------------------------------------------------------------------ *)
(** ** Search: blank queries, soundness, completeness, case of the query *)

Section SearchMore.

Lemma trimStart_blank : forall s, trimStart s = "" <-> allWhite s = true.
Proof.
  induction s as [|c s IH]; simpl; [tauto|].
  destruct (is_white c); simpl; [exact IH|].
  split; discriminate.
Qed.

Lemma trimEnd_blank : forall s, trimEnd s = "" <-> allWhite s = true.
Proof.
  induction s as [|c s IH]; simpl; [tauto|].
  destruct (trimEnd s) as [|d r].
  - destruct (is_white c); simpl.
    + split; intros _; [now apply IH | reflexivity].
    + split; discriminate.
  - split; [discriminate|]. intros H. apply andb_true_iff in H.
    destruct H as [_ H]. apply IH in H. discriminate.
Qed.

Lemma allWhite_trimStart : forall s, allWhite (trimStart s) = allWhite s.
Proof.
  induction s as [|c s IH]; simpl; [reflexivity|].
  destruct (is_white c) eqn:E; simpl; [exact IH | now rewrite E].
Qed.

Lemma trim_blank : forall s, String.eqb (trim s) "" = allWhite s.
Proof.
  intros s. unfold trim.
  destruct (String.eqb_spec (trimEnd (trimStart s)) "") as [E|E].
  - apply trimEnd_blank in E. now rewrite allWhite_trimStart in E.
  - destruct (allWhite s) eqn:W; [|reflexivity].
    exfalso. apply E. apply trimEnd_blank. now rewrite allWhite_trimStart.
Qed.

Lemma filter_none : forall {A : Type} (f : A -> bool) l,
  filter f l = [] <-> forall x, In x l -> f x = false.
Proof.
  intros A f. induction l as [|x l IH]; simpl.
  - split; [intros _ y [] | reflexivity].
  - destruct (f x) eqn:E.
    + split; [discriminate|]. intros H. specialize (H x (or_introl eq_refl)).
      congruence.
    + rewrite IH. split.
      * intros H y [<-|Hy]; auto.
      * intros H y Hy. apply H. now right.
Qed.

Lemma Subseq_trans : forall {A : Type} (a b c : list A),
  Subseq a b -> Subseq b c -> Subseq a c.
Proof.
  intros A a b c Hab Hbc. revert a Hab.
  induction Hbc; intros a Hab.
  - assumption.
  - inversion Hab; subst; constructor; auto.
  - constructor. auto.
Qed.

Lemma Subseq_firstn : forall {A : Type} n (l : list A), Subseq (firstn n l) l.
Proof.
  intros A n. induction n as [|n IH]; intros [|x l]; simpl;
    try constructor; auto.
  clear. induction l; constructor; assumption.
Qed.

Lemma Subseq_NoDup : forall {A : Type} (r l : list A),
  Subseq r l -> NoDup l -> NoDup r.
Proof.
  induction 1; intros Hnd; [assumption| |].
  - inversion Hnd; subst. constructor; [|auto].
    intros Hin. eapply Subseq_In in Hin; eauto.
  - inversion Hnd; subst. auto.
Qed.

Lemma is_white_lower : forall c, is_white (lower_unit c) = is_white c.
Proof. intros [[] [] [] [] [] [] [] []]; reflexivity. Qed.

Lemma allWhite_lower : forall s, allWhite (toLowerCase s) = allWhite s.
Proof.
  induction s as [|c s IH]; simpl; [reflexivity|].
  now rewrite is_white_lower, IH.
Qed.

End SearchMore.

(** X7.  A query made of white space only gives no suggestion, whatever the
    catalog; a query with some other code unit gives no suggestion exactly
    when no product of the catalog matches it. *)
Theorem search_empty_result :
  forall (q : string) (catalog : list Product.t),
    (allWhite q = true -> search q catalog = []) /\
    (allWhite q = false ->
       (search q catalog = [] <->
        forall p, In p catalog -> matchesTerm q p = false)).
Proof.
  intros q catalog. unfold search. rewrite trim_blank.
  split; intros ->; [reflexivity|].
  rewrite <- filter_none.
  destruct (filter (matchesTerm q) catalog) as [|x l]; simpl.
  - tauto.
  - split; discriminate.
Qed.

Lemma search_empty_result_witness :
  search (String (ascii_of_nat 9) "  ") (md_items demoCatalog) = [] /\
  search "xyz" (md_items demoCatalog) = [].
Proof.
  split.
  - apply (proj1 (search_empty_result _ (md_items demoCatalog))). reflexivity.
  - apply (proj2 (search_empty_result "xyz" (md_items demoCatalog)) eq_refl).
    intros p [<-|[]]. reflexivity.
Defined.

(** X8.  The suggestions are products of the catalog in catalog order, at
    most 10 of them, each matching the query; a catalog without repeated
    entries gives suggestions without repeated entries. *)
Theorem search_sound :
  forall (q : string) (catalog : list Product.t),
    Subseq (search q catalog) catalog /\
    (List.length (search q catalog) <= 10)%nat /\
    (forall p, In p (search q catalog) ->
               In p catalog /\ matchesTerm q p = true) /\
    (NoDup catalog -> NoDup (search q catalog)).
Proof.
  intros q catalog.
  assert (Hs : Subseq (search q catalog) catalog).
  { unfold search. destruct (String.eqb (trim q) "").
    - clear. induction catalog; constructor; assumption.
    - eapply Subseq_trans; [apply Subseq_firstn | apply Subseq_filter]. }
  split; [exact Hs|]. split; [|split].
  - unfold search. destruct (String.eqb (trim q) "");
      [simpl; lia | apply firstn_le_length].
  - intros p Hp. split; [eapply Subseq_In; eassumption|].
    unfold search in Hp. destruct (String.eqb (trim q) ""); [destruct Hp|].
    assert (Hf : In p (filter (matchesTerm q) catalog))
      by (eapply Subseq_In; [apply Subseq_firstn | exact Hp]).
    apply filter_In in Hf. tauto.
  - intros Hnd. eapply Subseq_NoDup; eassumption.
Qed.

Lemma search_sound_witness :
  NoDup (search "wid" (md_items demoCatalog)) /\
  (forall p, In p (search "wid" (md_items demoCatalog)) ->
             In p (md_items demoCatalog) /\ matchesTerm "wid" p = true).
Proof.
  destruct (search_sound "wid" (md_items demoCatalog)) as (_ & _ & Hm & Hnd).
  split; [|exact Hm].
  apply Hnd. repeat constructor. intros [].
Defined.

(** X9.  A matching product is among the suggestions whenever fewer than 10
    matching products stand before it in the catalog (and the query is not
    blank); with at most 10 matching products the suggestions are exactly
    the matching products. *)
Theorem search_complete :
  forall (q : string) (catalog : list Product.t),
    allWhite q = false ->
    (forall i p,
       nth_error catalog i = Some p ->
       matchesTerm q p = true ->
       (List.length (filter (matchesTerm q) (firstn i catalog)) < 10)%nat ->
       In p (search q catalog)) /\
    ((List.length (filter (matchesTerm q) catalog) <= 10)%nat ->
     search q catalog = filter (matchesTerm q) catalog).
Proof.
  intros q catalog Hq. unfold search. rewrite trim_blank, Hq. split.
  - intros i p Hn Hm Hlt.
    destruct (nth_error_split _ _ Hn) as (l1 & l2 & -> & Hlen).
    rewrite <- Hlen in Hlt.
    rewrite firstn_app, Nat.sub_diag, firstn_all in Hlt.
    simpl in Hlt. rewrite app_nil_r in Hlt.
    rewrite filter_app. cbn [filter]. rewrite Hm.
    set (f1 := filter (matchesTerm q) l1) in *.
    rewrite firstn_app. apply in_or_app. right.
    replace (10 - List.length f1)%nat with (S (9 - List.length f1))%nat by lia.
    cbn [firstn]. now left.
  - intros Hle. now apply firstn_all2.
Qed.

Lemma search_complete_witness :
  In (Product.mk "P1" "Widget") (search "WIDGET" (md_items demoCatalog)).
Proof.
  assert (Hq : allWhite "WIDGET" = false) by reflexivity.
  apply (proj1 (search_complete "WIDGET" (md_items demoCatalog) Hq)
               0%nat (Product.mk "P1" "Widget")).
  - reflexivity.
  - reflexivity.
  - simpl. lia.
Defined.

(** X10.  The suggestions do not depend on the case of the letters of the
    query: two queries with the same lower-case form give the same
    result. *)
Theorem search_query_case :
  forall (q q' : string) (catalog : list Product.t),
    toLowerCase q = toLowerCase q' ->
    search q catalog = search q' catalog.
Proof.
  intros q q' catalog H. unfold search. rewrite !trim_blank.
  rewrite <- (allWhite_lower q), <- (allWhite_lower q'), H.
  destruct (allWhite (toLowerCase q')); [reflexivity|].
  f_equal. apply filter_ext. intros p. unfold matchesTerm. now rewrite H.
Qed.

Lemma search_query_case_witness :
  search "WiDgEt" (md_items demoCatalog) = search "widget" (md_items demoCatalog).
Proof. apply search_query_case. reflexivity. Defined.

(* ------------------------------------------------------------------ *)
(** ** Quantities as text: [String] and [parseInt] *)

Section Numerals.

Lemma parse_digits_uint : forall d acc,
  parse_digits 10 (NilEmpty.string_of_uint d) (Some acc) = Some (uintValue d acc).
Proof.
  induction d; intros acc; simpl; try reflexivity; apply IHd.
Qed.

Lemma parseInt_uint : forall d,
  d <> Decimal.Nil ->
  parseInt (NilEmpty.string_of_uint d) = Int (uintValue d 0) /\
  parseInt (String "-" (NilEmpty.string_of_uint d)) = Int (- uintValue d 0).
Proof.
  intros d Hd.
  assert (Hm : forall x, -1 * x = - x) by (intros; lia).
  destruct d as [|d|d|d|d|d|d|d|d|d|d]; [contradiction|..];
    (destruct d as [|d|d|d|d|d|d|d|d|d|d];
     [split; reflexivity|..];
     unfold parseInt; cbn -[uintValue Z.mul];
     rewrite parse_digits_uint, Z.mul_1_l, Hm;
     split; reflexivity).
Qed.

Lemma uintValue_of_uint_acc : forall d acc,
  Z.pos (Pos.of_uint_acc d acc) = uintValue d (Z.pos acc).
Proof.
  induction d; intros acc; cbn [Pos.of_uint_acc uintValue]; try reflexivity;
    rewrite IHd; f_equal; lia.
Qed.

Lemma uintValue_of_uint : forall d, Z.of_uint d = uintValue d 0.
Proof.
  unfold Z.of_uint.
  induction d; simpl; try reflexivity; try exact IHd;
    apply uintValue_of_uint_acc.
Qed.

Lemma parseInt_string_of_int : forall d,
  d <> Decimal.Nil ->
  parseInt (NilZero.string_of_int (Decimal.Pos d)) = Int (Z.of_int (Decimal.Pos d)) /\
  parseInt (NilZero.string_of_int (Decimal.Neg d)) = Int (Z.of_int (Decimal.Neg d)).
Proof.
  intros d Hd. destruct (parseInt_uint d Hd) as [Hpos Hneg].
  unfold NilZero.string_of_int, NilZero.string_of_uint.
  cbn [Z.of_int]. rewrite uintValue_of_uint.
  destruct d; [contradiction|..]; split; assumption.
Qed.

Lemma parseInt_toString : forall z, parseInt (toString (Int z)) = Int z.
Proof.
  intros z. unfold toString.
  destruct z as [|p|p]; [reflexivity|..];
    pose proof (parseInt_string_of_int _ (Unsigned.to_uint_nonnil p)) as [Hpos Hneg].
  - change (Z.to_int (Z.pos p)) with (Decimal.Pos (Pos.to_uint p)).
    rewrite Hpos. f_equal. exact (DecimalZ.of_to (Z.pos p)).
  - change (Z.to_int (Z.neg p)) with (Decimal.Neg (Pos.to_uint p)).
    rewrite Hneg. f_equal. exact (DecimalZ.of_to (Z.neg p)).
Qed.

Lemma digit_value_nonneg : forall radix c d,
  digit_value radix c = Some d -> 0 <= d.
Proof.
  intros radix c d. unfold digit_value.
  set (n := Z.of_N (N_of_ascii c)).
  destruct ((48 <=? n) && (n <=? 57)) eqn:E1.
  - apply andb_true_iff in E1. destruct E1 as [E1 _]. apply Z.leb_le in E1.
    destruct (n - 48 <? radix); intros [= <-]; lia.
  - destruct ((97 <=? n) && (n <=? 122)) eqn:E2.
    + apply andb_true_iff in E2. destruct E2 as [E2 _]. apply Z.leb_le in E2.
      destruct (n - 87 <? radix); intros [= <-]; lia.
    + destruct ((65 <=? n) && (n <=? 90)) eqn:E3; [|discriminate].
      apply andb_true_iff in E3. destruct E3 as [E3 _]. apply Z.leb_le in E3.
      destruct (n - 55 <? radix); intros [= <-]; lia.
Qed.

Lemma parse_digits_nonneg : forall radix s acc m,
  0 <= radix ->
  match acc with Some a => 0 <= a | None => True end ->
  parse_digits radix s acc = Some m -> 0 <= m.
Proof.
  intros radix s. induction s as [|c s IH]; intros acc m Hr Ha; simpl.
  - intros ->. exact Ha.
  - destruct (digit_value radix c) as [d|] eqn:Ed.
    + apply IH; [assumption|]. apply digit_value_nonneg in Ed.
      destruct acc as [a|]; [nia | assumption].
    + intros ->. exact Ha.
Qed.

(** The sign read by [parseInt] is -1 only for a text whose first code unit
    after the leading white space is the minus sign. *)
Lemma parseInt_negative : forall v z,
  parseInt v = Int z -> z < 0 -> exists r, trimStart v = String "-" r.
Proof.
  intros v z. unfold parseInt.
  destruct (trimStart v) as [|c r].
  - simpl. discriminate.
  - destruct (Ascii.eqb_spec c "-") as [->|Hc]; [eauto|].
    assert (Hsign :
      match (match String c r with
             | String "-" r0 => (-1, r0)
             | String "+" r0 => (1, r0)
             | _ => (1, String c r)
             end) with (sign, _) => sign = 1 end).
    { destruct c as [[] [] [] [] [] [] [] []]; try reflexivity.
      now contradiction Hc. }
    destruct (match String c r with
              | String "-" r0 => (-1, r0)
              | String "+" r0 => (1, r0)
              | _ => (1, String c r)
              end) as [sign s2].
    subst sign.
    assert (Hradix :
      match (match s2 with
             | String "0" (String "x" r0) => (16, r0)
             | String "0" (String "X" r0) => (16, r0)
             | _ => (10, s2)
             end) with (radix, _) => 0 <= radix end).
    { destruct s2 as [|a s2]; [simpl; lia|].
      destruct a as [[] [] [] [] [] [] [] []]; try (simpl; lia).
      destruct s2 as [|b s2]; [simpl; lia|].
      destruct b as [[] [] [] [] [] [] [] []]; simpl; lia. }
    destruct (match s2 with
              | String "0" (String "x" r0) => (16, r0)
              | String "0" (String "X" r0) => (16, r0)
              | _ => (10, s2)
              end) as [radix s3].
    destruct (parse_digits radix s3 None) as [m|] eqn:Em; [|discriminate].
    apply parse_digits_nonneg in Em; [|assumption | exact I].
    intros H Hz. injection H as H. destruct m; simpl in H; lia.
Qed.

End Numerals.

(** X11.  [parseInt] reads back what [String] writes: for every integer
    [z] that a number holds exactly (at most 2^53 in absolute value),
    [parseInt(String(z))] is [z].  So the text shown in the quantity input,
    entered again, stores the same quantity (1 for zero). *)
Theorem parseInt_String_roundtrip :
  forall z : Z,
    Z.abs z <= 2 ^ 53 ->
    parseInt (toString (Int z)) = Int z /\
    coercedQty (toString (Int z)) = (if z =? 0 then Int 1 else Int z).
Proof.
  intros z _. split; [apply parseInt_toString|].
  unfold coercedQty, or_else. rewrite parseInt_toString. simpl.
  destruct (z =? 0); reflexivity.
Qed.

Lemma parseInt_String_roundtrip_witness :
  parseInt (toString (Int (-1700000000000))) = Int (-1700000000000) /\
  coercedQty (toString (Int 12)) = Int 12.
Proof.
  split.
  - apply (parseInt_String_roundtrip (-1700000000000)). vm_compute. discriminate.
  - apply (parseInt_String_roundtrip 12). vm_compute. discriminate.
Defined.

(** X12.  Whatever the text, the quantity input stores a non-zero integer,
    never NaN and never 0; the stored integer is negative only when the
    text, after leading white space, begins with a minus sign. *)
Theorem coercedQty_shape :
  forall value : string,
    exists z : Z,
      coercedQty value = Int z /\
      z <> 0 /\
      (z < 0 -> exists r, trimStart value = String "-" r).
Proof.
  intros value. unfold coercedQty, or_else.
  destruct (parseInt value) as [|z] eqn:E; simpl.
  - exists 1. repeat split; lia.
  - destruct (Z.eqb_spec z 0) as [->|Hz]; simpl.
    + exists 1. repeat split; lia.
    + exists z. repeat split; [assumption|].
      intros Hneg. eapply parseInt_negative; eassumption.
Qed.

Lemma coercedQty_shape_witness :
  exists r, trimStart "  -5" = String "-" r.
Proof.
  destruct (coercedQty_shape "  -5") as (z & Hz & _ & Hneg).
  apply Hneg. vm_compute in Hz. injection Hz as <-. reflexivity.
Defined.

(* ------------------------------------------------------------------ *)
(** ** Sessions: what every state of the page satisfies *)

Section StepView.

Lemma absorb_sent : forall es w,
  sent (fold_left absorb es w) = (sent w ++ fetches es)%list.
Proof.
  induction es as [|e es IH]; intros w; simpl.
  - now rewrite app_nil_r.
  - rewrite IH. destruct e; simpl; try reflexivity.
    now rewrite <- app_assoc.
Qed.

Lemma absorb_timers : forall es w,
  timers (fold_left absorb es w) = (timers w ++ timeouts es)%list.
Proof.
  induction es as [|e es IH]; intros w; simpl.
  - now rewrite app_nil_r.
  - rewrite IH. destruct e; simpl; try reflexivity.
    now rewrite <- app_assoc.
Qed.

Lemma absorb_pending : forall es w,
  filter isGet (fetches es) = [] ->
  masterPending (fold_left absorb es w) = masterPending w.
Proof.
  induction es as [|e es IH]; intros w H; simpl; [reflexivity|].
  destruct e as [st d|r|l]; simpl in H; try (rewrite IH; auto; fail).
  unfold isGet in H at 1. destruct (method r) eqn:E; [discriminate|].
  rewrite IH by assumption. simpl. now rewrite E.
Qed.

Lemma dispatch_ui : forall b h w,
  ui (dispatch b h w) = rerender b (ui w) (fst (h (ui w))).
Proof.
  intros b h w. unfold dispatch. destruct (h (ui w)) as [s' es].
  now rewrite absorb_ui.
Qed.

Lemma dispatch_sent : forall b h w,
  sent (dispatch b h w) = (sent w ++ fetches (snd (h (ui w))))%list.
Proof.
  intros b h w. unfold dispatch. destruct (h (ui w)) as [s' es].
  now rewrite absorb_sent.
Qed.

Lemma dispatch_timers : forall b h w,
  timers (dispatch b h w) = (timers w ++ timeouts (snd (h (ui w))))%list.
Proof.
  intros b h w. unfold dispatch. destruct (h (ui w)) as [s' es].
  now rewrite absorb_timers.
Qed.

Lemma dispatch_pending : forall b h w,
  filter isGet (fetches (snd (h (ui w)))) = [] ->
  masterPending (dispatch b h w) = masterPending w.
Proof.
  intros b h w. unfold dispatch. destruct (h (ui w)) as [s' es]. simpl.
  intros H. now rewrite absorb_pending.
Qed.

Lemma removeNth_In : forall {A : Type} k (l : list A) x,
  In x (removeNth k l) -> In x l.
Proof.
  intros A. unfold removeNth.
  induction k as [|k IH]; intros [|y l] x; simpl; try tauto.
  intros [H|H]; [now left | right; now apply IH].
Qed.

(** No handler of the running page asks for a GET. *)
Lemma fires_no_get : forall w ev b h,
  fires w ev b h -> forall s, filter isGet (fetches (snd (h s))) = [].
Proof.
  intros w ev b h Hf s. destruct Hf; try reflexivity.
  - unfold handleAddItem. destruct (alreadyListed product s); reflexivity.
  - unfold handleSubmit_begin. destruct (submitGuard s); reflexivity.
  - destruct o; reflexivity.
Qed.

(** Each step of the page is the run of one handler on the current render,
    followed by the render. *)
Lemma step_fires : forall w ev w',
  step w ev = Some w' ->
  exists b h,
    fires w ev b h /\
    ui w' = rerender b (ui w) (fst (h (ui w))) /\
    sent w' = (sent w ++ fetches (snd (h (ui w))))%list /\
    masterPending w' = (match ev with
                        | MasterSettled _ => false
                        | _ => masterPending w
                        end) /\
    (forall t, In t (timers w') ->
               In t (timers w) \/ In t (timeouts (snd (h (ui w))))).
Proof.
  intros w ev w' Hstep.
  assert (Htim : forall b h t,
            In t (timers (dispatch b h w)) ->
            In t (timers w) \/ In t (timeouts (snd (h (ui w))))).
  { intros b h t. rewrite dispatch_timers. apply in_app_or. }
  destruct ev; unfold step in Hstep.
  - destruct (masterPending w) eqn:Hp; [|discriminate]. injection Hstep as <-.
    destruct o as [data|statusText|errorMessage];
      eexists; eexists; (split; [constructor; exact Hp|]);
      (split; [exact (dispatch_ui _ _ w)|]);
      (split; [exact (dispatch_sent _ _ w)|]);
      (split; [reflexivity | exact (Htim _ _)]).
  - destruct (isLoading (ui w)) eqn:Hl; cbn [negb andb] in Hstep;
      [discriminate|].
    destruct (existsb _ _) eqn:Hin; [|discriminate]. injection Hstep as <-.
    exists false, (setSelectedStore value).
    split.
    { constructor; [assumption|]. apply existsb_exists in Hin.
      destruct Hin as [x [Hx Hv]]. apply String.eqb_eq in Hv. now subst. }
    split; [apply dispatch_ui|]. split; [apply dispatch_sent|].
    split; [now apply dispatch_pending | apply Htim].
  - unfold searchDisabled in Hstep.
    destruct (isLoading (ui w)) eqn:Hl; cbn [orb] in Hstep; [discriminate|].
    destruct (products (ui w)) as [|p ps] eqn:Hp;
      cbn [List.length Nat.eqb] in Hstep; [discriminate|].
    injection Hstep as <-.
    exists false, (setSearchTerm value).
    split; [constructor; [assumption | rewrite Hp; discriminate]|].
    split; [apply dispatch_ui|]. split; [apply dispatch_sent|].
    split; [now apply dispatch_pending | apply Htim].
  - injection Hstep as <-. exists false, handleClickOutside.
    split; [constructor|].
    split; [apply dispatch_ui|]. split; [apply dispatch_sent|].
    split; [now apply dispatch_pending | apply Htim].
  - destruct (nth_error (filteredProducts (ui w)) k) as [p|] eqn:Hn; [|discriminate].
    injection Hstep as <-. exists false, (handleAddItem p now).
    split; [now constructor|].
    split; [exact (dispatch_ui _ _ w)|]. split; [exact (dispatch_sent _ _ w)|].
    split; [|exact (Htim _ _)].
    apply (dispatch_pending false (handleAddItem p now) w).
    apply (fires_no_get w (ClickProduct k now) false (handleAddItem p now)).
    now constructor.
  - destruct (nth_error (requestItems (ui w)) row) as [item|] eqn:Hn; [|discriminate].
    injection Hstep as <-. exists false, (qtyOnChange item value).
    split; [now constructor|].
    split; [apply dispatch_ui|]. split; [apply dispatch_sent|].
    split; [now apply dispatch_pending | apply Htim].
  - destruct (nth_error (requestItems (ui w)) row) as [item|] eqn:Hn; [|discriminate].
    injection Hstep as <-. exists false, (reasonOnChange item value).
    split; [now constructor|].
    split; [apply dispatch_ui|]. split; [apply dispatch_sent|].
    split; [now apply dispatch_pending | apply Htim].
  - destruct (nth_error (requestItems (ui w)) row) as [item|] eqn:Hn; [|discriminate].
    injection Hstep as <-. exists false, (handleDeleteItem (RequestItem.id item)).
    split; [now constructor|].
    split; [apply dispatch_ui|]. split; [apply dispatch_sent|].
    split; [now apply dispatch_pending | apply Htim].
  - unfold submitDisabled in Hstep.
    destruct (isSubmitting (ui w)) eqn:Hs; cbn [orb] in Hstep; [discriminate|].
    destruct (isLoading (ui w)) eqn:Hl; [discriminate|].
    injection Hstep as <-. exists false, handleSubmit_begin.
    split; [now constructor|].
    split; [apply dispatch_ui|]. split; [apply dispatch_sent|].
    split; [|apply Htim].
    apply dispatch_pending.
    apply (fires_no_get w ClickSubmit false handleSubmit_begin).
    now constructor.
  - destruct (inflight w) as [|n] eqn:Hn; [discriminate|].
    injection Hstep as <-. exists false, (handleSubmit_settled o).
    split; [constructor; lia|].
    split; [exact (dispatch_ui _ _ w)|]. split; [exact (dispatch_sent _ _ w)|].
    split; [|exact (Htim _ _)].
    apply (dispatch_pending false (handleSubmit_settled o) w).
    destruct o; reflexivity.
  - destruct (nth_error (timers w) k) as [[st d]|] eqn:Hn; [|discriminate].
    injection Hstep as <-. exists false, (setStatus st).
    split; [econstructor; exact Hn|].
    split; [exact (dispatch_ui false (setStatus st) w)|].
    split; [exact (dispatch_sent false (setStatus st) w)|].
    split; [exact (dispatch_pending false (setStatus st) w eq_refl)|].
    intros t Ht. apply (Htim false (setStatus st)).
    eapply removeNth_In. exact Ht.
Qed.

End StepView.

Section ShapeProofs.

Lemma search_incl : forall q catalog, incl (search q catalog) catalog.
Proof.
  intros q catalog p Hp. unfold search in Hp.
  destruct (String.eqb (trim q) ""); [destruct Hp|].
  assert (Hf : In p (filter (matchesTerm q) catalog)).
  { eapply Subseq_In; [apply Subseq_firstn | exact Hp]. }
  apply filter_In in Hf. tauto.
Qed.

Lemma ShapeOf_rerender : forall b prev next pending rs ts,
  ShapeOf next pending rs ts -> ShapeOf (rerender b prev next) pending rs ts.
Proof.
  intros b prev next pending rs ts H. unfold rerender.
  destruct (b || negb (String.eqb (searchTerm prev) (searchTerm next)));
    [|assumption].
  destruct H. constructor; simpl; try assumption.
  apply search_incl.
Qed.

Lemma ShapeOf_timers : forall s pending rs ts ts',
  ShapeOf s pending rs ts ->
  (forall t, In t ts' -> In t ts) ->
  ShapeOf s pending rs ts'.
Proof.
  intros s pending rs ts ts' H Hin. destruct H.
  constructor; try assumption.
  rewrite Forall_forall in *. auto.
Qed.

Lemma coercedQty_nonzero : forall value,
  exists z, coercedQty value = Int z /\ z <> 0.
Proof.
  intros value. unfold coercedQty, or_else.
  destruct (parseInt value) as [|z]; simpl; [exists 1; split; [reflexivity | lia]|].
  destruct (Z.eqb_spec z 0); simpl; [exists 1 | exists z]; split;
    try reflexivity; lia.
Qed.

Lemma incl_nil_eq : forall {A : Type} (l : list A), incl l [] -> l = [].
Proof.
  intros A [|x l] H; [reflexivity|]. destruct (H x (or_introl eq_refl)).
Qed.

Lemma wellFormedItem_change : forall catalog id fv l,
  (match fv with
   | OfQty v => exists z, v = Int z /\ z <> 0
   | OfReason _ => True
   end) ->
  Forall (wellFormedItem catalog) l ->
  Forall (wellFormedItem catalog)
    (map (fun item => if String.eqb (RequestItem.id item) id
                      then withField item fv else item) l).
Proof.
  intros catalog id fv l Hfv H. induction H as [|x l Hx Hl IH]; simpl;
    constructor; [|assumption].
  destruct (String.eqb (RequestItem.id x) id); [|assumption].
  destruct Hx as (Hc & Hq & Hi). destruct fv; repeat split; assumption.
Qed.

Lemma Forall_filter : forall {A : Type} (P : A -> Prop) f l,
  Forall P l -> Forall P (filter f l).
Proof.
  intros A P f l H. induction H; simpl; [constructor|].
  destruct (f x); [constructor|]; assumption.
Qed.

Lemma fires_Shape : forall w ev b h,
  fires w ev b h -> Inv w -> Shape w ->
  ShapeOf (fst (h (ui w)))
          (match ev with MasterSettled _ => false | _ => masterPending w end)
          (sent w ++ fetches (snd (h (ui w))))
          (timers w ++ timeouts (snd (h (ui w)))).
Proof.
  intros w ev b h Hf [Hfl Hnd] [Hp Hload Hget Hsug Hitems Hstore Hposts Htim].
  assert (Hidle3 : Forall wellFormedTimer (timers w ++ [(idleStatus, 3000)])).
  { apply Forall_app. split; [assumption|].
    constructor; [|constructor]. split; [reflexivity | now left]. }
  assert (Hidle5 : Forall wellFormedTimer (timers w ++ [(idleStatus, 5000)])).
  { apply Forall_app. split; [assumption|].
    constructor; [|constructor]. split; [reflexivity | now right]. }
  destruct Hf.
  - (* catalog loaded *)
    rewrite H in Hp. symmetry in Hp.
    destruct (Hload Hp) as (Hst & Hpr & Hreq & Hsel & Hterm & Hpost).
    rewrite Hpr in Hsug. apply incl_nil_eq in Hsug.
    constructor; simpl; rewrite ?app_nil_r; try assumption.
    + reflexivity.
    + discriminate.
    + rewrite Hsug. intros x [].
    + rewrite Hreq. constructor.
    + rewrite Hsel. now left.
    + rewrite Hpost. constructor.
  - (* response not ok *)
    constructor; simpl; rewrite ?app_nil_r; try assumption;
      [reflexivity | discriminate].
  - (* fetch threw *)
    constructor; simpl; rewrite ?app_nil_r; try assumption;
      [reflexivity | discriminate].
  - (* store chosen *)
    constructor; simpl; rewrite ?app_nil_r; try assumption.
    intros Hl. congruence.
  - (* query typed *)
    constructor; simpl; rewrite ?app_nil_r; try assumption.
    intros Hl. congruence.
  - (* click outside *)
    constructor; simpl; rewrite ?app_nil_r; try assumption.
    intros x [].
  - (* suggestion clicked *)
    assert (Hin : In product (products (ui w))).
    { apply Hsug. eapply nth_error_In. eassumption. }
    unfold handleAddItem. destruct (alreadyListed product (ui w)).
    + constructor; simpl; rewrite ?app_nil_r; assumption.
    + constructor; simpl; rewrite ?app_nil_r; try assumption.
      * intros Hl. destruct (Hload Hl) as (_ & Hpr & _).
        rewrite Hpr in Hin. destruct Hin.
      * intros x [].
      * apply Forall_app. split; [assumption|].
        constructor; [|constructor].
        split; [exists product; auto|].
        split; [exists 1; split; [reflexivity | lia]|].
        exists now. reflexivity.
  - (* quantity typed *)
    unfold qtyOnChange, handleItemChange.
    constructor; simpl; rewrite ?app_nil_r; try assumption.
    + intros Hl. destruct (Hload Hl) as (Hst & Hpr & Hreq & Hrest).
      rewrite Hreq. simpl. auto.
    + apply (wellFormedItem_change _ (RequestItem.id item)
               (OfQty (coercedQty value)));
        [apply coercedQty_nonzero | assumption].
  - (* reason typed *)
    unfold reasonOnChange, handleItemChange.
    constructor; simpl; rewrite ?app_nil_r; try assumption.
    + intros Hl. destruct (Hload Hl) as (Hst & Hpr & Hreq & Hrest).
      rewrite Hreq. simpl. auto.
    + apply (wellFormedItem_change _ (RequestItem.id item) (OfReason value));
        [exact I | assumption].
  - (* row deleted *)
    constructor; simpl; rewrite ?app_nil_r; try assumption.
    + intros Hl. destruct (Hload Hl) as (Hst & Hpr & Hreq & Hrest).
      rewrite Hreq. simpl. auto.
    + now apply Forall_filter.
  - (* submit clicked *)
    unfold handleSubmit_begin. destruct (submitGuard (ui w)) as [st|] eqn:G.
    + constructor; simpl; rewrite ?app_nil_r; assumption.
    + apply submitGuard_None in G. destruct G as [Gs Gi].
      constructor; simpl; try assumption.
      * intros Hl. congruence.
      * rewrite filter_app. simpl. now rewrite app_nil_r.
      * rewrite filter_app. simpl. apply Forall_app. split; [assumption|].
        constructor; [|constructor].
        split; [reflexivity|]. split; [reflexivity|].
        exists (submitPayload (ui w)). split; [reflexivity|].
        split; [exact Gs|].
        split; [destruct Hstore as [E|E]; [congruence | exact E]|].
        split; [simpl; destruct (requestItems (ui w)); [contradiction | discriminate]|].
        split.
        -- simpl. apply Forall_map. eapply Forall_impl; [|exact Hitems].
           intros item (Hc & (z & Hq & Hz) & _).
           split; [exact Hc|]. exists z. split; [assumption|].
           simpl. now rewrite Hq.
        -- simpl. rewrite map_map. exact Hnd.
      * now rewrite app_nil_r.
  - (* submission settled *)
    destruct o.
    + constructor; simpl; rewrite ?app_nil_r; try assumption.
      * intros Hl. destruct (Hload Hl) as (Hst & Hpr & Hreq & Hsel & Hrest).
        auto.
      * constructor.
      * now left.
    + constructor; simpl; rewrite ?app_nil_r; assumption.
  - (* timer fired *)
    constructor; simpl; rewrite ?app_nil_r; assumption.
Qed.

Lemma step_Shape : forall w ev w',
  step w ev = Some w' -> Inv w -> Shape w -> Shape w'.
Proof.
  intros w ev w' Hstep Hinv Hsh.
  destruct (step_fires w ev w' Hstep) as (b & h & Hf & Hui & Hsent & Hmp & Htim).
  pose proof (fires_Shape w ev b h Hf Hinv Hsh) as H.
  unfold Shape. rewrite Hui, Hsent, Hmp.
  apply ShapeOf_rerender.
  eapply ShapeOf_timers; [exact H|].
  intros t Ht. apply in_or_app. auto.
Qed.

Lemma Shape_mount : Shape mount.
Proof.
  constructor; simpl; try reflexivity; try (constructor; fail).
  - intros _. repeat split; reflexivity.
  - intros x [].
  - now left.
Qed.

Lemma run_Shape : forall evs w w',
  run w evs = Some w' -> Inv w -> Shape w -> Inv w' /\ Shape w'.
Proof.
  induction evs as [|ev evs IH]; simpl; intros w w' H Hinv Hsh.
  - injection H as <-. auto.
  - destruct (step w ev) as [w1|] eqn:Hs; [|discriminate].
    eapply IH; [eassumption | eapply step_Inv | eapply step_Shape]; eassumption.
Qed.

Lemma reachable_Shape : forall w, reachable w -> Shape w.
Proof.
  intros w [evs H].
  apply (run_Shape evs mount w H Inv_mount Shape_mount).
Qed.

Lemma noDash_uint : forall d, noDash (NilEmpty.string_of_uint d) = true.
Proof. induction d; simpl; auto. Qed.

Lemma noDash_toString : forall t, 0 <= t -> noDash (toString (Int t)) = true.
Proof.
  intros [|p|p] Ht; [reflexivity| |lia].
  unfold toString. change (Z.to_int (Z.pos p)) with (Decimal.Pos (Pos.to_uint p)).
  unfold NilZero.string_of_int, NilZero.string_of_uint.
  destruct (Pos.to_uint p) eqn:E; try reflexivity; rewrite <- E; apply noDash_uint.
Qed.

Lemma noDash_dash : forall a b, noDash (a ++ String "-" b) = false.
Proof.
  induction a as [|c a IH]; intros b; simpl; [reflexivity|].
  rewrite IH. apply andb_false_r.
Qed.

(** The part of an identifier before its last dash. *)
Lemma dash_split : forall a b d1 d2,
  noDash d1 = true -> noDash d2 = true ->
  a ++ String "-" d1 = b ++ String "-" d2 -> a = b.
Proof.
  induction a as [|x a IH]; intros [|y b] d1 d2 H1 H2 E; simpl in E.
  - reflexivity.
  - injection E as Ex E. subst. rewrite noDash_dash in H1. discriminate H1.
  - injection E as Ex E. subst. rewrite noDash_dash in H2. discriminate H2.
  - injection E as -> E. f_equal. exact (IH b d1 d2 H1 H2 E).
Qed.

Lemma ids_NoDup : forall l,
  NoDup (codes l) -> Forall idOfClock l -> NoDup (ids l).
Proof.
  induction l as [|x l IH]; simpl; intros Hnd Hid; [constructor|].
  inversion Hnd as [|? ? Hx Hl]; subst. inversion Hid as [|? ? Hix Hil]; subst.
  constructor; [|auto].
  intros Hin. apply Hx. unfold ids, codes in *. rewrite in_map_iff in *.
  destruct Hin as [y [E Hy]]. exists y. split; [|assumption].
  rewrite Forall_forall in Hil. destruct (Hil y Hy) as (ty & Hty & Ey).
  destruct Hix as (tx & Htx & Ex). rewrite Ex, Ey in E.
  eapply dash_split; [| |exact E]; now apply noDash_toString.
Qed.

Lemma idOfClock_change : forall id fv l,
  Forall idOfClock l ->
  Forall idOfClock
    (map (fun item => if String.eqb (RequestItem.id item) id
                      then withField item fv else item) l).
Proof.
  intros id fv l H. induction H as [|x l Hx Hl IH]; simpl; constructor;
    [|assumption].
  destruct (String.eqb (RequestItem.id x) id); [|assumption].
  destruct Hx as (t & Ht & E). exists t. destruct fv; auto.
Qed.

Lemma fires_idOfClock : forall w ev b h,
  fires w ev b h -> clockOk ev ->
  Forall idOfClock (requestItems (ui w)) ->
  Forall idOfClock (requestItems (fst (h (ui w)))).
Proof.
  intros w ev b h Hf Hc H. destruct Hf; simpl; try assumption.
  - unfold handleAddItem. destruct (alreadyListed product (ui w)); simpl;
      [assumption|].
    apply Forall_app. split; [assumption|]. constructor; [|constructor].
    exists now. split; [exact Hc | reflexivity].
  - now apply (idOfClock_change (RequestItem.id item) (OfQty (coercedQty value))).
  - now apply (idOfClock_change (RequestItem.id item) (OfReason value)).
  - now apply Forall_filter.
  - unfold handleSubmit_begin. destruct (submitGuard (ui w)); assumption.
  - destruct o; simpl; [constructor | assumption].
Qed.

Lemma run_idOfClock : forall evs w w',
  run w evs = Some w' -> Forall clockOk evs ->
  Forall idOfClock (requestItems (ui w)) ->
  Forall idOfClock (requestItems (ui w')).
Proof.
  induction evs as [|ev evs IH]; simpl; intros w w' H Hc Hid.
  - injection H as <-. assumption.
  - destruct (step w ev) as [w1|] eqn:Hs; [|discriminate].
    inversion Hc as [|? ? Hev Hevs]; subst.
    apply (IH w1 w' H Hevs).
    destruct (step_fires w ev w1 Hs) as (b & h & Hf & Hui & _).
    rewrite Hui. destruct (rerender_frame b (ui w) (fst (h (ui w)))) as (-> & _).
    eapply fires_idOfClock; eassumption.
Qed.

End ShapeProofs.

(** X13.  One catalog fetch per session: in every state of a session the
    only GET request ever handed to [fetch] is the one of the mount, and
    [isLoading] is set exactly while that fetch has not settled. *)
Theorem session_catalog_fetched_once :
  forall w : World,
    reachable w ->
    filter isGet (sent w) = [masterRequest] /\
    masterPending w = isLoading (ui w).
Proof.
  intros w H. apply reachable_Shape in H. destruct H. auto.
Qed.

Lemma session_catalog_fetched_once_witness :
  filter isGet (sent demoWorld) = [masterRequest] /\
  masterPending demoWorld = isLoading (ui demoWorld).
Proof.
  apply (session_catalog_fetched_once demoWorld).
  exists demoSubmitting. vm_compute. reflexivity.
Defined.

(** X14.  While the catalog is loading the page holds nothing and can do
    nothing: the catalog, the request list, the store selection and the
    query are empty, no submission has been sent, and the store selector,
    the search input and the submit button give no event. *)
Theorem session_loading_is_inert :
  forall w : World,
    reachable w ->
    isLoading (ui w) = true ->
    stores (ui w) = [] /\ products (ui w) = [] /\
    requestItems (ui w) = [] /\ selectedStore (ui w) = "" /\
    searchTerm (ui w) = "" /\ filter isPost (sent w) = [] /\
    step w ClickSubmit = None /\
    (forall value, step w (SelectStore value) = None) /\
    (forall value, step w (SearchInput value) = None).
Proof.
  intros w H Hl. apply reachable_Shape in H. destruct H as [_ Hload _ _ _ _ _ _].
  destruct (Hload Hl) as (H1 & H2 & H3 & H4 & H5 & H6).
  repeat (split; [assumption|]).
  unfold step, submitDisabled, searchDisabled. rewrite Hl.
  split; [now rewrite orb_true_r|]. split; reflexivity.
Qed.

Lemma session_loading_is_inert_witness :
  requestItems (ui mount) = [] /\ step mount ClickSubmit = None.
Proof.
  assert (Hr : reachable mount) by (exists []; reflexivity).
  destruct (session_loading_is_inert mount Hr eq_refl)
    as (_ & _ & H3 & _ & _ & _ & H7 & _).
  split; assumption.
Defined.

(** X15.  In every state of a session the suggestions shown are products of
    the catalog, and every line item carries the code and the description
    of a product of the catalog. *)
Theorem session_items_from_catalog :
  forall w : World,
    reachable w ->
    incl (filteredProducts (ui w)) (products (ui w)) /\
    Forall (fun item => fromCatalog (products (ui w))
                          (RequestItem.code item) (RequestItem.desc item))
           (requestItems (ui w)).
Proof.
  intros w H. apply reachable_Shape in H. destruct H as [_ _ _ Hs Hi _ _ _].
  split; [assumption|]. eapply Forall_impl; [|exact Hi].
  intros item H. apply H.
Qed.

Lemma session_items_from_catalog_witness :
  Forall (fun item => fromCatalog (products (ui demoWorld))
                        (RequestItem.code item) (RequestItem.desc item))
         (requestItems (ui demoWorld)).
Proof.
  apply (session_items_from_catalog demoWorld).
  exists demoSubmitting. vm_compute. reflexivity.
Defined.

(** X16.  In every state of a session every line item has a quantity that
    is a non-zero integer: neither NaN nor 0 is ever in the list. *)
Theorem session_quantities_nonzero :
  forall w : World,
    reachable w ->
    Forall (fun item => exists z, RequestItem.qty item = Int z /\ z <> 0)
           (requestItems (ui w)).
Proof.
  intros w H. apply reachable_Shape in H. destruct H as [_ _ _ _ Hi _ _ _].
  eapply Forall_impl; [|exact Hi]. intros item H. apply H.
Qed.

Lemma session_quantities_nonzero_witness :
  Forall (fun item => exists z, RequestItem.qty item = Int z /\ z <> 0)
         (requestItems (ui demoWorld)).
Proof.
  apply (session_quantities_nonzero demoWorld).
  exists demoSubmitting. vm_compute. reflexivity.
Defined.

(** X17.  In every state of a session the selected store is either empty or
    the value of one of the options rendered for the stores of the
    catalog. *)
Theorem session_store_is_option :
  forall w : World,
    reachable w ->
    selectedStore (ui w) = "" \/
    In (selectedStore (ui w)) (map storeOption (stores (ui w))).
Proof.
  intros w H. apply reachable_Shape in H. destruct H as [_ _ _ _ _ Hs _ _].
  destruct Hs as [E|E]; [left; now symmetry | now right].
Qed.

Lemma session_store_is_option_witness :
  selectedStore (ui demoWorld) = "" \/
  In (selectedStore (ui demoWorld)) (map storeOption (stores (ui demoWorld))).
Proof.
  apply (session_store_is_option demoWorld).
  exists demoSubmitting. vm_compute. reflexivity.
Defined.

(** X18.  Every submission request of a session goes to the endpoint in
    no-cors mode with a payload whose store is non-empty and is an option
    of the catalog's stores, and whose items are not empty, have pairwise
    distinct codes, carry code and description of catalog products and, as
    quantity, the numeral of a non-zero integer. *)
Theorem session_posts_well_formed :
  forall w : World,
    reachable w ->
    Forall (wellFormedPost (stores (ui w)) (products (ui w)))
           (filter isPost (sent w)).
Proof.
  intros w H. apply reachable_Shape in H. now destruct H.
Qed.

Lemma session_posts_well_formed_witness :
  Forall (wellFormedPost (stores (ui demoWorld)) (products (ui demoWorld)))
         (filter isPost (sent demoWorld)) /\
  List.length (filter isPost (sent demoWorld)) = 1%nat.
Proof.
  split; [|reflexivity].
  apply (session_posts_well_formed demoWorld).
  exists demoSubmitting. vm_compute. reflexivity.
Defined.

(** X19.  Every timer pending in a session does one thing when it fires: it
    sets the idle status with the empty message; its delay is 3000 ms (set
    by a rejected add) or 5000 ms (set by a successful submission). *)
Theorem session_timers_reset_status :
  forall w : World,
    reachable w ->
    Forall wellFormedTimer (timers w) /\
    (forall k w', step w (TimerFires k) = Some w' ->
                  status (ui w') = {| type := idle; message := "" |}).
Proof.
  intros w H. apply reachable_Shape in H. destruct H as [_ _ _ _ _ _ _ Ht].
  split; [assumption|].
  intros k w' Hs.
  destruct (step_fires w (TimerFires k) w' Hs) as (b & h & Hf & Hui & _).
  inversion Hf as [| | | | | | | | | | | |k' st d Hn]; subst.
  rewrite Hui.
  destruct (rerender_frame false (ui w) (fst (setStatus st (ui w))))
    as (_ & _ & _ & _ & -> & _).
  apply nth_error_In in Hn. rewrite Forall_forall in Ht.
  destruct (Ht _ Hn) as [E _]. simpl in E. subst st. reflexivity.
Qed.

Lemma session_timers_reset_status_witness :
  timers demoTwoRowsWorld = [(idleStatus, 3000)] /\
  Forall wellFormedTimer (timers demoTwoRowsWorld) /\
  type (status (ui demoTwoRowsWorld)) = info /\
  exists w', step demoTwoRowsWorld (TimerFires 0) = Some w' /\
             status (ui w') = {| type := idle; message := "" |}.
Proof.
  assert (Hr : reachable demoTwoRowsWorld)
    by (exists demoTwoRows; vm_compute; reflexivity).
  destruct (session_timers_reset_status demoTwoRowsWorld Hr) as [Hall Hfire].
  split; [reflexivity|]. split; [exact Hall|]. split; [reflexivity|].
  destruct (step demoTwoRowsWorld (TimerFires 0)) as [w'|] eqn:Hs;
    [|vm_compute in Hs; discriminate].
  exists w'. split; [reflexivity | exact (Hfire 0%nat w' Hs)].
Defined.

(** X20.  With an empty catalog (the load failed, or it delivered no
    product) the request list stays empty and no submission is ever sent:
    a click on the submit button is answered by a validation error. *)
Theorem session_empty_catalog_sends_nothing :
  forall w : World,
    reachable w ->
    products (ui w) = [] ->
    requestItems (ui w) = [] /\
    filter isPost (sent w) = [] /\
    (forall value, step w (SearchInput value) = None) /\
    (forall k now, step w (ClickProduct k now) = None) /\
    (forall w', step w ClickSubmit = Some w' ->
                sent w' = sent w /\ type (status (ui w')) = error).
Proof.
  intros w H Hp. apply reachable_Shape in H.
  destruct H as [_ _ _ Hsug Hi _ Hposts _]. rewrite Hp in Hi, Hposts, Hsug.
  apply incl_nil_eq in Hsug.
  assert (Hreq : requestItems (ui w) = []).
  { destruct (requestItems (ui w)) as [|x l]; [reflexivity|].
    inversion Hi as [|? ? ((p & [] & _) & _) _]. }
  split; [exact Hreq|]. split.
  - destruct (filter isPost (sent w)) as [|r rs]; [reflexivity|].
    inversion Hposts as [|? ? (_ & _ & p & _ & _ & _ & Hne & Hall & _) _].
    destruct (pitems p) as [|e es]; [contradiction|].
    inversion Hall as [|? ? ((q & [] & _) & _) _].
  - split; [|split].
    + intros value. unfold step, searchDisabled. rewrite Hp. simpl.
      now rewrite orb_true_r.
    + intros k now. unfold step. rewrite Hsug. now destruct k.
    + intros w' Hs.
      destruct (step_fires w ClickSubmit w' Hs) as (b & h & Hf & Hui & Hsent & _).
      inversion Hf; subst. rewrite Hui, Hsent.
      destruct (rerender_frame false (ui w) (fst (handleSubmit_begin (ui w))))
        as (_ & _ & _ & _ & -> & _).
      unfold handleSubmit_begin, submitGuard. rewrite Hreq.
      destruct (String.eqb (selectedStore (ui w)) ""); simpl;
        rewrite app_nil_r; split; reflexivity.
Qed.

Lemma session_empty_catalog_sends_nothing_witness :
  match run mount [MasterSettled (MasterThrew "Failed to fetch"); ClickSubmit] with
  | Some w => requestItems (ui w) = [] /\ filter isPost (sent w) = []
  | None => False
  end.
Proof.
  destruct (run mount [MasterSettled (MasterThrew "Failed to fetch"); ClickSubmit])
    as [w|] eqn:Hrun; [|vm_compute in Hrun; discriminate].
  assert (Hr : reachable w) by (eexists; exact Hrun).
  assert (Hp : products (ui w) = [])
    by (vm_compute in Hrun; injection Hrun as <-; reflexivity).
  destruct (session_empty_catalog_sends_nothing w Hr Hp) as (H1 & H2 & _).
  split; assumption.
Defined.

(** X21.  In a session whose clock readings at the add clicks are not
    negative, the identifiers of the line items in the list are pairwise
    distinct at every moment; so the delete button of a row removes that
    row and no other. *)
Theorem session_ids_distinct :
  forall (evs : list Event) (w : World),
    run mount evs = Some w ->
    Forall clockOk evs ->
    NoDup (ids (requestItems (ui w))) /\
    (forall row item,
       nth_error (requestItems (ui w)) row = Some item ->
       requestItems (fst (handleDeleteItem (RequestItem.id item) (ui w)))
       = removeNth row (requestItems (ui w))).
Proof.
  intros evs w Hrun Hc.
  assert (Hnd : NoDup (ids (requestItems (ui w)))).
  { apply ids_NoDup.
    - apply reachable_codes_NoDup. now exists evs.
    - apply (run_idOfClock evs mount w Hrun Hc). constructor. }
  split; [exact Hnd|].
  intros row item Hn. rewrite delete_result.
  now apply (filter_other_ids _ _ Hnd row item).
Qed.

Lemma session_ids_distinct_witness :
  ids (requestItems (ui demoTwoRowsWorld)) = ["P1-1000"; "P2-1000"] /\
  NoDup (ids (requestItems (ui demoTwoRowsWorld))) /\
  codes (requestItems (fst (handleDeleteItem "P1-1000" (ui demoTwoRowsWorld))))
  = ["P2"].
Proof.
  assert (Hrun : run mount demoTwoRows = Some demoTwoRowsWorld)
    by (vm_compute; reflexivity).
  assert (Hc : Forall clockOk demoTwoRows)
    by (repeat constructor; vm_compute; discriminate).
  destruct (session_ids_distinct demoTwoRows demoTwoRowsWorld Hrun Hc)
    as [Hnd Hdel].
  split; [reflexivity|]. split; [exact Hnd|].
  assert (Hrow : nth_error (requestItems (ui demoTwoRowsWorld)) 0
                 = Some (newItem (Product.mk "P1" "Widget") 1000))
    by reflexivity.
  change "P1-1000" with (RequestItem.id (newItem (Product.mk "P1" "Widget") 1000)).
  rewrite (Hdel 0%nat _ Hrow). reflexivity.
Defined.

(* ------------------------------------------------------------------ *)
(** ** The catalog after the load, and submitting again *)

Section AfterLoad.

Lemma run_app : forall pre post w,
  run w (pre ++ post) =
  match run w pre with
  | Some w1 => run w1 post
  | None => None
  end.
Proof.
  induction pre as [|ev pre IH]; intros post w; simpl; [reflexivity|].
  destruct (step w ev); [apply IH | reflexivity].
Qed.

Lemma rerender_catalog : forall b prev next,
  stores (rerender b prev next) = stores next /\
  products (rerender b prev next) = products next.
Proof.
  intros b prev next. unfold rerender.
  destruct (b || negb (String.eqb (searchTerm prev) (searchTerm next)));
    split; reflexivity.
Qed.

(** Once the catalog fetch has settled no step changes the catalog or
    starts loading again. *)
Lemma step_settled_catalog : forall w ev w',
  step w ev = Some w' ->
  masterPending w = false ->
  masterPending w' = false /\
  isLoading (ui w') = isLoading (ui w) /\
  stores (ui w') = stores (ui w) /\
  products (ui w') = products (ui w).
Proof.
  intros w ev w' Hs Hp.
  destruct (step_fires w ev w' Hs) as (b & h & Hf & Hui & _ & Hmp & _).
  destruct (rerender_frame b (ui w) (fst (h (ui w)))) as (_ & _ & Rl & _).
  destruct (rerender_catalog b (ui w) (fst (h (ui w)))) as (Rs & Rp).
  rewrite Hui, Rl, Rs, Rp. split.
  - rewrite Hmp. now destruct ev.
  - destruct Hf; try congruence; try (repeat split; reflexivity).
    + unfold handleAddItem. destruct (alreadyListed product (ui w));
        repeat split; reflexivity.
    + unfold handleSubmit_begin. destruct (submitGuard (ui w));
        repeat split; reflexivity.
    + destruct o; repeat split; reflexivity.
Qed.

Lemma run_settled_catalog : forall evs w w',
  run w evs = Some w' ->
  masterPending w = false ->
  isLoading (ui w') = isLoading (ui w) /\
  stores (ui w') = stores (ui w) /\
  products (ui w') = products (ui w).
Proof.
  induction evs as [|ev evs IH]; simpl; intros w w' H Hp.
  - injection H as <-. auto.
  - destruct (step w ev) as [w1|] eqn:Hs; [|discriminate].
    destruct (step_settled_catalog w ev w1 Hs Hp) as (Hp1 & Hl & Hst & Hpr).
    destruct (IH w1 w' H Hp1) as (Hl' & Hst' & Hpr').
    repeat split; congruence.
Qed.

End AfterLoad.

(** X22.  The catalog is what the one fetch delivered, for the rest of the
    session: after the fetch has settled, whatever events follow, loading
    has ended, and the stores and products are those of the response, or
    empty when the response was not ok or the fetch threw. *)
Theorem session_catalog_is_fixed :
  forall (pre post : list Event) (o : MasterOutcome) (w : World),
    run mount (pre ++ MasterSettled o :: post) = Some w ->
    isLoading (ui w) = false /\
    match o with
    | MasterOk data =>
        stores (ui w) = md_stores data /\ products (ui w) = md_items data
    | MasterNotOk _ | MasterThrew _ =>
        stores (ui w) = [] /\ products (ui w) = []
    end.
Proof.
  intros pre post o w Hrun. rewrite run_app in Hrun.
  destruct (run mount pre) as [w1|] eqn:Hpre; [|discriminate].
  change (run w1 (MasterSettled o :: post))
    with (match step w1 (MasterSettled o) with
          | Some w' => run w' post
          | None => None
          end) in Hrun.
  destruct (step w1 (MasterSettled o)) as [w2|] eqn:Hs; [|discriminate].
  assert (Hsh : Shape w1) by (apply reachable_Shape; now exists pre).
  destruct Hsh as [Hp Hload _ _ _ _ _ _].
  destruct (step_fires w1 _ w2 Hs) as (b & h & Hf & Hui & _ & Hmp & _).
  destruct (run_settled_catalog post w2 w Hrun Hmp) as (-> & -> & ->).
  destruct (rerender_frame b (ui w1) (fst (h (ui w1)))) as (_ & _ & Rl & _).
  destruct (rerender_catalog b (ui w1) (fst (h (ui w1)))) as (Rs & Rp).
  rewrite Hui, Rl, Rs, Rp.
  assert (Hl : isLoading (ui w1) = true).
  { rewrite <- Hp. inversion Hf; assumption. }
  destruct (Hload Hl) as (Hst & Hpr & _).
  inversion Hf; subst; simpl; auto.
Qed.

Lemma session_catalog_is_fixed_witness :
  isLoading (ui demoWorld) = false /\
  stores (ui demoWorld) = md_stores demoCatalog /\
  products (ui demoWorld) = md_items demoCatalog.
Proof.
  apply (session_catalog_is_fixed [] (tl demoSubmitting) (MasterOk demoCatalog)
           demoWorld).
  vm_compute. reflexivity.
Defined.

(** X23.  After a transport error the same click sends the same request
    again; after a success the next click on submit sends nothing and is
    answered by the missing-store error, the selection having been
    cleared. *)
Theorem submit_again :
  forall s : State,
    selectedStore s <> "" ->
    requestItems s <> [] ->
    fetches (snd (handleSubmit_begin s)) = [submitRequest (submitPayload s)] /\
    fetches (snd (handleSubmit_begin (fst (handleSubmit Rejected s)))) =
      [submitRequest (submitPayload s)] /\
    snd (handleSubmit_begin (fst (handleSubmit Fulfilled s))) = [] /\
    status (fst (handleSubmit_begin (fst (handleSubmit Fulfilled s)))) = noStoreError.
Proof.
  intros s Hs Hi.
  pose proof (submitGuard_passes s Hs Hi) as G.
  assert (E : selectedStore (fst (handleSubmit Rejected s)) = selectedStore s /\
              requestItems (fst (handleSubmit Rejected s)) = requestItems s).
  { unfold handleSubmit. rewrite G. split; reflexivity. }
  destruct E as [Es Ei].
  split; [|split].
  - unfold handleSubmit_begin. rewrite G. reflexivity.
  - unfold handleSubmit_begin.
    rewrite submitGuard_passes by (rewrite ?Es, ?Ei; assumption).
    unfold submitSend, submitPayload. cbn [andThen setIsSubmitting setStatus emit
      fst snd fetches flat_map app]. now rewrite Es, Ei.
  - unfold handleSubmit_begin, handleSubmit. rewrite G. split; reflexivity.
Qed.

Lemma submit_again_witness :
  let item := newItem (Product.mk "P1" "Widget") 1000 in
  let s := fst ((setSelectedStore "[S1] Store One" ;;
                 setRequestItems (fun _ => [item]))%action initialState) in
  fetches (snd (handleSubmit_begin (fst (handleSubmit Rejected s)))) =
    [submitRequest (submitPayload s)] /\
  snd (handleSubmit_begin (fst (handleSubmit Fulfilled s))) = [].
Proof.
  intros item s.
  assert (Hs : selectedStore s <> "") by (vm_compute; discriminate).
  assert (Hi : requestItems s <> []) by (vm_compute; discriminate).
  destruct (submit_again s Hs Hi) as (_ & H2 & H3 & _).
  split; assumption.
Defined.

(* ------------------------------------------------------------------ *)
(** ** The suggestions on display *)

Section Suggestions.

(** A handler of the running page that does not replace the catalog leaves
    the suggestions as they are or hides them. *)
Lemma fires_suggestions : forall w ev h,
  fires w ev false h ->
  products (fst (h (ui w))) = products (ui w) /\
  (filteredProducts (fst (h (ui w))) = [] \/
   filteredProducts (fst (h (ui w))) = filteredProducts (ui w)).
Proof.
  intros w ev h Hf.
  remember false as b eqn:Hb.
  destruct Hf; try discriminate Hb; simpl; auto.
  - unfold handleAddItem. destruct (alreadyListed product (ui w)); simpl; auto.
  - unfold handleSubmit_begin. destruct (submitGuard (ui w)); simpl; auto.
  - destruct o; simpl; auto.
Qed.

Lemma step_suggestions : forall w ev w',
  step w ev = Some w' ->
  (filteredProducts (ui w) = [] \/
   filteredProducts (ui w) = search (searchTerm (ui w)) (products (ui w))) ->
  filteredProducts (ui w') = [] \/
  filteredProducts (ui w') = search (searchTerm (ui w')) (products (ui w')).
Proof.
  intros w ev w' Hs H.
  destruct (step_fires w ev w' Hs) as (b & h & Hf & Hui & _).
  rewrite Hui. unfold rerender.
  destruct b; cbn [orb]; [right; reflexivity|].
  destruct (String.eqb_spec (searchTerm (ui w)) (searchTerm (fst (h (ui w)))))
    as [E|E]; cbn [negb]; [|right; reflexivity].
  destruct (fires_suggestions w ev h Hf) as (Hp & [Hn|Hsame]);
    [left; assumption|].
  rewrite Hsame, Hp, <- E. exact H.
Qed.

End Suggestions.

(** X24.  At every moment of a session the suggestion list is either hidden
    (empty) or exactly the search result for the query in the input and the
    catalog: no stale suggestion is ever on display. *)
Theorem session_suggestions_current :
  forall w : World,
    reachable w ->
    filteredProducts (ui w) = [] \/
    filteredProducts (ui w) = search (searchTerm (ui w)) (products (ui w)).
Proof.
  intros w [evs Hrun].
  assert (Hgen : forall evs w0 w1,
            run w0 evs = Some w1 ->
            (filteredProducts (ui w0) = [] \/
             filteredProducts (ui w0) = search (searchTerm (ui w0)) (products (ui w0))) ->
            filteredProducts (ui w1) = [] \/
            filteredProducts (ui w1) = search (searchTerm (ui w1)) (products (ui w1))).
  { clear. induction evs as [|ev evs IH]; simpl; intros w0 w1 H H0.
    - injection H as <-. assumption.
    - destruct (step w0 ev) as [w2|] eqn:Hs; [|discriminate].
      apply (IH w2 w1 H). eapply step_suggestions; eassumption. }
  apply (Hgen evs mount w Hrun). left. reflexivity.
Qed.

Lemma session_suggestions_current_witness :
  match run mount [MasterSettled (MasterOk demoCatalog); SearchInput "wid"] with
  | Some w => filteredProducts (ui w) = [] \/
              filteredProducts (ui w) = search (searchTerm (ui w)) (products (ui w))
  | None => False
  end.
Proof.
  destruct (run mount [MasterSettled (MasterOk demoCatalog); SearchInput "wid"])
    as [w|] eqn:Hrun; [|vm_compute in Hrun; discriminate].
  apply (session_suggestions_current w). eexists. exact Hrun.
Defined.
